(** * gameweb: the storefront of [main.py], embedded and verified

    A shallow embedding of the Flask application in [src/main.py]: the
    session-held cart, the [Order] table with the constraints its columns
    declare, the checkout handler, the administrator's status update, the
    order listings, and the two library calls the ledger depends on
    ([json.dumps] / [json.loads] and [datetime.strftime]).

    Conventions.
    - A Python [str] is the list of its code points ([list Z]); source
      literals are written as in the source and decoded from UTF-8 by [lit].
    - A Python [int] is a [Z].
    - A naive [datetime] is the number of microseconds elapsed since
      0001-01-01T00:00:00, so that comparison and [timedelta] arithmetic are
      integer comparison and subtraction.
    - A view function takes the principal Flask-Login resolved for the
      request, the session of its cookie and the database, and returns the
      response, the session as the response leaves it, and the database.
      An exception that no handler catches ends the request in
      [InternalServerError], the transaction rolled back.

    Registration, login and the start of the program are in [Account], the
    catalogue pages in [Catalogue]: they read and write neither the cart
    nor the [Order] table, and of the other views none writes the [User]
    table.  Flask-Login's [load_user] is represented by its outcome, the
    principal of a request. *)

From Stdlib Require Import ZArith List Bool Lia String Ascii.
From Stdlib Require Import Sorting Permutation.
From Stdlib Require Import Zbitwise.
From Stdlib Require DecimalFacts DecimalZ.
Import ListNotations.
Local Open Scope Z_scope.
Set Warnings "-register-all".

(** ** Python strings *)

Definition str : Type := list Z.

Fixpoint bytes_of (s : string) : list Z :=
  match s with
  | EmptyString => []
  | String a s' => Z.of_N (N_of_ascii a) :: bytes_of s'
  end.

(** UTF-8 decoding of a source literal (1 to 4 byte sequences). *)
Fixpoint utf8_decode (bs : list Z) : str :=
  match bs with
  | [] => []
  | b0 :: r0 =>
      if b0 <? 0x80 then b0 :: utf8_decode r0
      else
        match r0 with
        | [] => []
        | b1 :: r1 =>
            if b0 <? 0xE0 then
              ((b0 - 0xC0) * 64 + (b1 - 0x80)) :: utf8_decode r1
            else
              match r1 with
              | [] => []
              | b2 :: r2 =>
                  if b0 <? 0xF0 then
                    ((b0 - 0xE0) * 4096 + (b1 - 0x80) * 64 + (b2 - 0x80))
                      :: utf8_decode r2
                  else
                    match r2 with
                    | [] => []
                    | b3 :: r3 =>
                        ((b0 - 0xF0) * 262144 + (b1 - 0x80) * 4096
                         + (b2 - 0x80) * 64 + (b3 - 0x80)) :: utf8_decode r3
                    end
              end
        end
  end.

Definition lit (s : string) : str := utf8_decode (bytes_of s).

Fixpoint str_eqb (a b : str) : bool :=
  match a, b with
  | [], [] => true
  | x :: a', y :: b' => (x =? y) && str_eqb a' b'
  | _, _ => false
  end.

(** ** Decimal digits *)

Definition digit (d : Z) : Z := 48 + d.

Definition pad2 (n : Z) : str := [digit (n / 10 mod 10); digit (n mod 10)].

Definition pad4 (n : Z) : str :=
  [digit (n / 1000 mod 10); digit (n / 100 mod 10);
   digit (n / 10 mod 10); digit (n mod 10)].

Fixpoint uint_chars (d : Decimal.uint) : str :=
  match d with
  | Decimal.Nil => []
  | Decimal.D0 d' => 48 :: uint_chars d'
  | Decimal.D1 d' => 49 :: uint_chars d'
  | Decimal.D2 d' => 50 :: uint_chars d'
  | Decimal.D3 d' => 51 :: uint_chars d'
  | Decimal.D4 d' => 52 :: uint_chars d'
  | Decimal.D5 d' => 53 :: uint_chars d'
  | Decimal.D6 d' => 54 :: uint_chars d'
  | Decimal.D7 d' => 55 :: uint_chars d'
  | Decimal.D8 d' => 56 :: uint_chars d'
  | Decimal.D9 d' => 57 :: uint_chars d'
  end.

(** [repr] of a Python [int]. *)
Definition int_repr (z : Z) : str :=
  match Z.to_int z with
  | Decimal.Pos d => uint_chars d
  | Decimal.Neg d => 45 :: uint_chars d
  end.

Definition is_digit (c : Z) : bool := (48 <=? c) && (c <=? 57).

Definition push_digit (c : Z) (d : Decimal.uint) : Decimal.uint :=
  if c =? 48 then Decimal.D0 d else if c =? 49 then Decimal.D1 d
  else if c =? 50 then Decimal.D2 d else if c =? 51 then Decimal.D3 d
  else if c =? 52 then Decimal.D4 d else if c =? 53 then Decimal.D5 d
  else if c =? 54 then Decimal.D6 d else if c =? 55 then Decimal.D7 d
  else if c =? 56 then Decimal.D8 d else Decimal.D9 d.

(** The number a run of digits denotes. *)
Fixpoint uint_of_chars (s : str) : Decimal.uint :=
  match s with
  | c :: r => push_digit c (uint_of_chars r)
  | [] => Decimal.Nil
  end.

(** The longest prefix of digits ([[0-9]*]) and what follows it. *)
Fixpoint span_digits (s : str) : str * str :=
  match s with
  | c :: r =>
      if is_digit c
      then let '(ds, r') := span_digits r in (c :: ds, r')
      else ([], s)
  | [] => ([], [])
  end.

(** [int(text)] for a text matched by [-?[0-9]+]. *)
Definition int_of_text (text : str) : Z :=
  match text with
  | c :: r => if c =? 45 then - Z.of_uint (uint_of_chars r)
              else Z.of_uint (uint_of_chars text)
  | [] => 0
  end.

(** ** datetime *)

Definition datetime : Type := Z.

Definition US_PER_SECOND : Z := 1000000.
Definition US_PER_DAY : Z := 86400 * US_PER_SECOND.

(** [timedelta(days=n)] *)
Definition timedelta_days (n : Z) : Z := n * US_PER_DAY.

Definition _DAYS_BEFORE_MONTH (m : Z) : Z :=
  nth (Z.to_nat m) [-1; 0; 31; 59; 90; 120; 151; 181; 212; 243; 273; 304; 334] 0.

Definition _DAYS_IN_MONTH (m : Z) : Z :=
  nth (Z.to_nat m) [-1; 31; 28; 31; 30; 31; 30; 31; 31; 30; 31; 30; 31] 0.

Definition b2z (b : bool) : Z := if b then 1 else 0.

(** [datetime._ord2ymd]: proleptic Gregorian ordinal (day 1 is
    0001-01-01) to year, month, day. *)
Definition _ord2ymd (n0 : Z) : Z * Z * Z :=
  let n := n0 - 1 in
  let n400 := n / 146097 in
  let n := n mod 146097 in
  let year := n400 * 400 + 1 in
  let n100 := n / 36524 in
  let n := n mod 36524 in
  let n4 := n / 1461 in
  let n := n mod 1461 in
  let n1 := n / 365 in
  let n := n mod 365 in
  let year := year + n100 * 100 + n4 * 4 + n1 in
  if (n1 =? 4) || (n100 =? 4) then (year - 1, 12, 31)
  else
    let leapyear := (n1 =? 3) && (negb (n4 =? 24) || (n100 =? 3)) in
    let month := Z.shiftr (n + 50) 5 in
    let preceding := _DAYS_BEFORE_MONTH month + b2z ((2 <? month) && leapyear) in
    if n <? preceding then
      let month := month - 1 in
      let preceding :=
        preceding - (_DAYS_IN_MONTH month + b2z ((month =? 2) && leapyear)) in
      (year, month, n - preceding + 1)
    else (year, month, n - preceding + 1).

(** [t.strftime('%Y%m%d%H%M%S')]: the fourteen digits of the date and the
    time of day, the microseconds dropped. *)
Definition strftime_YmdHMS (t : datetime) : str :=
  let secs := t / US_PER_SECOND in
  let '(y, m, d) := _ord2ymd (secs / 86400 + 1) in
  let sod := secs mod 86400 in
  pad4 y ++ pad2 m ++ pad2 d
    ++ pad2 (sod / 3600) ++ pad2 (sod / 60 mod 60) ++ pad2 (sod mod 60).

(** [datetime(y, m, d, H, M, S, us)], through [_ymd2ord]. *)
Definition mk_datetime (y m d H M S us : Z) : datetime :=
  let y' := y - 1 in
  let days_before_year := y' * 365 + y' / 4 - y' / 100 + y' / 400 in
  let leap := (y mod 4 =? 0) && (negb (y mod 100 =? 0) || (y mod 400 =? 0)) in
  let days := days_before_year + _DAYS_BEFORE_MONTH m
              + b2z ((2 <? m) && leap) + d - 1 in
  ((days * 86400 + H * 3600 + M * 60 + S) * US_PER_SECOND) + us.

(** ** The session cart *)

(** One entry of [session['cart']]: the dictionary built by [add_to_cart].
    [request.form.get] yields [None] for a field the form does not carry. *)
Record CartLine : Type := mkCartLine {
  game : option str;
  item : option str;
  price : Z
}.

(** [sum(item['price'] for item in items)] *)
Definition cart_total (items : list CartLine) : Z :=
  fold_left (fun acc it => acc + price it) items 0.

(** ** json *)

Module Json.

(** What [json.loads] builds.  A real number is kept as the literal that
    denotes it ([NaN], [Infinity] and [-Infinity] included); an object is
    the sequence of its pairs, from which [dict] is built. *)
Inductive json : Type :=
| JNull
| JBool (b : bool)
| JInt (z : Z)
| JFloat (literal : str)
| JStr (s : str)
| JArr (vs : list json)
| JObj (kvs : list (str * json)).

Inductive outcome (A : Type) : Type :=
| Ok (a : A)
| JSONDecodeError
| OutOfFuel.
Arguments Ok {A} a.
Arguments JSONDecodeError {A}.
Arguments OutOfFuel {A}.

(** *** Encoder ([ensure_ascii=True], separators [', '] and [': ']) *)

Definition hex_digit (d : Z) : Z := if d <? 10 then 48 + d else 87 + d.

(** ['\\u{0:04x}'.format(n)] *)
Definition u_escape (n : Z) : str :=
  [92; 117; hex_digit (n / 4096 mod 16); hex_digit (n / 256 mod 16);
   hex_digit (n / 16 mod 16); hex_digit (n mod 16)].

(** [ESCAPE_ASCII] with [ESCAPE_DCT]: a backslash, a quote and whatever
    lies outside [' '..'~'] are escaped. *)
Definition escape_char (c : Z) : str :=
  if c =? 34 then [92; 34]
  else if c =? 92 then [92; 92]
  else if c =? 10 then [92; 110]
  else if c =? 13 then [92; 114]
  else if c =? 9 then [92; 116]
  else if c =? 12 then [92; 102]
  else if c =? 8 then [92; 98]
  else if (32 <=? c) && (c <=? 126) then [c]
  else if c <? 0x10000 then u_escape c
  else
    let n := c - 0x10000 in
    u_escape (Z.lor 0xd800 (Z.land (Z.shiftr n 10) 0x3ff))
      ++ u_escape (Z.lor 0xdc00 (Z.land n 0x3ff)).

Definition encode_basestring_ascii (s : str) : str :=
  [34] ++ flat_map escape_char s ++ [34].

Definition dumps_optstr (o : option str) : str :=
  match o with
  | Some s => encode_basestring_ascii s
  | None => lit "null"
  end.

(** A dictionary key with the key separator: the quoted key, [': ']. *)
Definition dumps_key (k : string) : str := [34] ++ lit k ++ [34; 58; 32].

Definition dumps_line (l : CartLine) : str :=
  lit "{" ++ dumps_key "game" ++ dumps_optstr (game l)
    ++ lit ", " ++ dumps_key "item" ++ dumps_optstr (item l)
    ++ lit ", " ++ dumps_key "price" ++ int_repr (price l) ++ lit "}".

Fixpoint dumps_lines (items : list CartLine) : str :=
  match items with
  | [] => []
  | [l] => dumps_line l
  | l :: rest => dumps_line l ++ lit ", " ++ dumps_lines rest
  end.

(** [json.dumps(cart_list)] *)
Definition dumps (cart_list : list CartLine) : str :=
  lit "[" ++ dumps_lines cart_list ++ lit "]".

(** The object [json.loads] gives back for such a text. *)
Definition optstr_value (o : option str) : json :=
  match o with Some s => JStr s | None => JNull end.

Definition line_value (l : CartLine) : json :=
  JObj [(lit "game", optstr_value (game l));
        (lit "item", optstr_value (item l));
        (lit "price", JInt (price l))].

Definition cart_value (items : list CartLine) : json :=
  JArr (map line_value items).

(** *** Decoder *)

Definition is_ws (c : Z) : bool :=
  (c =? 32) || (c =? 9) || (c =? 10) || (c =? 13).

(** [WHITESPACE.match(s, end).end()] *)
Fixpoint skip_ws (s : str) : str :=
  match s with
  | c :: r => if is_ws c then skip_ws r else s
  | [] => []
  end.

(** [s[idx:idx + len(p)] == p], giving what follows the prefix. *)
Fixpoint strip_prefix (p s : str) : option str :=
  match p, s with
  | [], _ => Some s
  | a :: p', b :: s' => if a =? b then strip_prefix p' s' else None
  | _ :: _, [] => None
  end.

Definition hex_val (c : Z) : option Z :=
  if is_digit c then Some (c - 48)
  else if (97 <=? c) && (c <=? 102) then Some (c - 87)
  else if (65 <=? c) && (c <=? 70) then Some (c - 55)
  else None.

(** [_decode_uXXXX]: four hexadecimal digits. *)
Definition decode_uXXXX (a b c d : Z) : option Z :=
  match hex_val a, hex_val b, hex_val c, hex_val d with
  | Some x, Some y, Some z, Some w => Some (((x * 16 + y) * 16 + z) * 16 + w)
  | _, _, _, _ => None
  end.

(** The [BACKSLASH] table. *)
Definition backslash (esc : Z) : option Z :=
  if esc =? 34 then Some 34
  else if esc =? 92 then Some 92
  else if esc =? 47 then Some 47
  else if esc =? 98 then Some 8
  else if esc =? 102 then Some 12
  else if esc =? 110 then Some 10
  else if esc =? 114 then Some 13
  else if esc =? 116 then Some 9
  else None.

Definition cons_char (c : Z) (r : option (str * str)) : option (str * str) :=
  match r with
  | Some (v, rest) => Some (c :: v, rest)
  | None => None
  end.

(** [scanstring(s, end, strict=True)], from the character after the opening
    quote: the decoded string and what follows the closing quote; [None]
    where it raises [JSONDecodeError]. *)
Fixpoint scanstring (s : str) : option (str * str) :=
  match s with
  | [] => None
  | c :: r =>
      if c =? 34 then Some ([], r)
      else if c =? 92 then
        match r with
        | [] => None
        | esc :: r1 =>
            if esc =? 117 then
              match r1 with
              | h1 :: h2 :: h3 :: h4 :: r2 =>
                  match decode_uXXXX h1 h2 h3 h4 with
                  | None => None
                  | Some uni =>
                      if (0xd800 <=? uni) && (uni <=? 0xdbff) then
                        match r2 with
                        | b :: u :: r3 =>
                            if (b =? 92) && (u =? 117) then
                              match r3 with
                              | g1 :: g2 :: g3 :: g4 :: r4 =>
                                  match decode_uXXXX g1 g2 g3 g4 with
                                  | None => None
                                  | Some uni2 =>
                                      if (0xdc00 <=? uni2) && (uni2 <=? 0xdfff)
                                      then
                                        cons_char
                                          (0x10000
                                           + Z.lor (Z.shiftl (uni - 0xd800) 10)
                                                   (uni2 - 0xdc00))
                                          (scanstring r4)
                                      else cons_char uni (scanstring r2)
                                  end
                              | _ => None
                              end
                            else cons_char uni (scanstring r2)
                        | _ => cons_char uni (scanstring r2)
                        end
                      else cons_char uni (scanstring r2)
                  end
              | _ => None
              end
            else
              match backslash esc with
              | Some ch => cons_char ch (scanstring r1)
              | None => None
              end
        end
      else if c <? 32 then None
      else cons_char c (scanstring r)
  end.

(** [NUMBER_RE], group by group: an optional minus sign and either a lone
    zero or a run of digits that starts with a non-zero digit; optionally a
    dot and one digit or more; optionally [e] or [E], a sign, one digit or
    more.  Each matcher gives its group and what follows the match. *)
Definition match_integer (s : str) : option (str * str) :=
  let '(sign, s1) :=
    match s with
    | c :: r => if c =? 45 then ([45], r) else ([], s)
    | [] => ([], [])
    end in
  match s1 with
  | c :: r =>
      if c =? 48 then Some (sign ++ [48], r)
      else if is_digit c
      then let '(ds, r') := span_digits s1 in Some (sign ++ ds, r')
      else None
  | [] => None
  end.

Definition match_frac (s : str) : str * str :=
  match s with
  | c :: r =>
      if c =? 46 then
        match span_digits r with
        | ([], _) => ([], s)
        | (ds, r') => (c :: ds, r')
        end
      else ([], s)
  | [] => ([], [])
  end.

Definition match_exp (s : str) : str * str :=
  match s with
  | c :: r =>
      if (c =? 101) || (c =? 69) then
        let '(sign, r1) :=
          match r with
          | c1 :: r' => if (c1 =? 45) || (c1 =? 43) then ([c1], r') else ([], r)
          | [] => ([], [])
          end in
        match span_digits r1 with
        | ([], _) => ([], s)
        | (ds, r2) => (c :: sign ++ ds, r2)
        end
      else ([], s)
  | [] => ([], [])
  end.

Definition is_empty (s : str) : bool :=
  match s with [] => true | _ :: _ => false end.

(** The number branch of [scan_once]. *)
Definition scan_number (s : str) : option (json * str) :=
  match match_integer s with
  | None => None
  | Some (integer, r) =>
      let '(frac, r1) := match_frac r in
      let '(exp, r2) := match_exp r1 in
      if is_empty frac && is_empty exp
      then Some (JInt (int_of_text integer), r2)
      else Some (JFloat (integer ++ frac ++ exp), r2)
  end.

(** The constants of [scan_once] that are not numbers. *)
Definition scan_constant (s : str) : option (json * str) :=
  match strip_prefix (lit "NaN") s with
  | Some r => Some (JFloat (lit "NaN"), r)
  | None =>
      match strip_prefix (lit "Infinity") s with
      | Some r => Some (JFloat (lit "Infinity"), r)
      | None =>
          match strip_prefix (lit "-Infinity") s with
          | Some r => Some (JFloat (lit "-Infinity"), r)
          | None => None
          end
      end
  end.

Definition scan_literal (s : str) : option (json * str) :=
  match strip_prefix (lit "null") s with
  | Some r => Some (JNull, r)
  | None =>
      match strip_prefix (lit "true") s with
      | Some r => Some (JBool true, r)
      | None =>
          match strip_prefix (lit "false") s with
          | Some r => Some (JBool false, r)
          | None =>
              match scan_number s with
              | Some res => Some res
              | None => scan_constant s
              end
          end
      end
  end.

(** [scan_once], [JSONArray] and [JSONObject].  The three recurse through
    one another on the text that is left; [fuel] bounds the calls.
    [elements] starts at the first value of a non-empty array, [members]
    after the opening quote of a key. *)
Fixpoint scan_once (fuel : nat) (s : str) {struct fuel} : outcome (json * str) :=
  match fuel with
  | O => OutOfFuel
  | S fuel' =>
      match s with
      | [] => JSONDecodeError
      | c :: r =>
          if c =? 34 then
            match scanstring r with
            | Some (v, r') => Ok (JStr v, r')
            | None => JSONDecodeError
            end
          else if c =? 123 then
            match skip_ws r with
            | c' :: r' =>
                if c' =? 125 then Ok (JObj [], r')
                else if c' =? 34 then
                  match members fuel' r' with
                  | Ok (kvs, r'') => Ok (JObj kvs, r'')
                  | JSONDecodeError => JSONDecodeError
                  | OutOfFuel => OutOfFuel
                  end
                else JSONDecodeError
            | [] => JSONDecodeError
            end
          else if c =? 91 then
            match skip_ws r with
            | c' :: r' =>
                if c' =? 93 then Ok (JArr [], r')
                else
                  match elements fuel' (c' :: r') with
                  | Ok (vs, r'') => Ok (JArr vs, r'')
                  | JSONDecodeError => JSONDecodeError
                  | OutOfFuel => OutOfFuel
                  end
            | [] => JSONDecodeError
            end
          else
            match scan_literal s with
            | Some res => Ok res
            | None => JSONDecodeError
            end
      end
  end

with elements (fuel : nat) (s : str) {struct fuel} : outcome (list json * str) :=
  match fuel with
  | O => OutOfFuel
  | S fuel' =>
      match scan_once fuel' s with
      | Ok (v, r) =>
          match skip_ws r with
          | c :: r' =>
              if c =? 93 then Ok ([v], r')
              else if c =? 44 then
                match elements fuel' (skip_ws r') with
                | Ok (vs, r'') => Ok (v :: vs, r'')
                | JSONDecodeError => JSONDecodeError
                | OutOfFuel => OutOfFuel
                end
              else JSONDecodeError
          | [] => JSONDecodeError
          end
      | JSONDecodeError => JSONDecodeError
      | OutOfFuel => OutOfFuel
      end
  end

with members (fuel : nat) (s : str) {struct fuel}
  : outcome (list (str * json) * str) :=
  match fuel with
  | O => OutOfFuel
  | S fuel' =>
      match scanstring s with
      | None => JSONDecodeError
      | Some (key, r) =>
          match skip_ws r with
          | c :: r1 =>
              if c =? 58 then
                match scan_once fuel' (skip_ws r1) with
                | Ok (v, r2) =>
                    match skip_ws r2 with
                    | c2 :: r3 =>
                        if c2 =? 125 then Ok ([(key, v)], r3)
                        else if c2 =? 44 then
                          match skip_ws r3 with
                          | q :: r4 =>
                              if q =? 34 then
                                match members fuel' r4 with
                                | Ok (kvs, r5) => Ok ((key, v) :: kvs, r5)
                                | JSONDecodeError => JSONDecodeError
                                | OutOfFuel => OutOfFuel
                                end
                              else JSONDecodeError
                          | [] => JSONDecodeError
                          end
                        else JSONDecodeError
                    | [] => JSONDecodeError
                    end
                | JSONDecodeError => JSONDecodeError
                | OutOfFuel => OutOfFuel
                end
              else JSONDecodeError
          | [] => JSONDecodeError
          end
      end
  end.

(** [json.loads(s)]: one value between optional white space, and nothing
    after it ("Extra data" otherwise).  The fuel is enough for every text
    ([JsonFacts.loads_total]); the recursion limit of the interpreter, which
    stops the decoder on a text nested some thousand levels deep, is not
    part of the model. *)
Definition loads (s : str) : outcome json :=
  match scan_once (2 * List.length s + 1) (skip_ws s) with
  | Ok (v, r) =>
      match skip_ws r with
      | [] => Ok v
      | _ :: _ => JSONDecodeError
      end
  | JSONDecodeError => JSONDecodeError
  | OutOfFuel => OutOfFuel
  end.

(** *** Vocabulary for the properties of the codec *)

(** The surrogate ranges of [scanstring]. *)
Definition is_high (u : Z) : bool := (0xd800 <=? u) && (u <=? 0xdbff).
Definition is_low (u : Z) : bool := (0xdc00 <=? u) && (u <=? 0xdfff).

(** A Unicode scalar value: a code point that is not a surrogate. *)
Definition scalar (c : Z) : Prop :=
  0 <= c < 0xd800 \/ 0xe000 <= c < 0x110000.

Definition valid_optstr (o : option str) : Prop :=
  match o with Some s => Forall scalar s | None => True end.

(** The texts of a line are Unicode text, as form fields decoded from
    UTF-8 are. *)
Definition valid_line (l : CartLine) : Prop :=
  valid_optstr (game l) /\ valid_optstr (item l).

(** A text that does not go on with a digit. *)
Definition no_digit_head (rest : str) : Prop :=
  match rest with [] => True | c :: _ => is_digit c = false end.

(** What may follow a number for it to end there. *)
Definition number_stop (rest : str) : Prop :=
  match rest with
  | [] => True
  | c :: _ => is_digit c = false /\ c <> 46 /\ c <> 101 /\ c <> 69
  end.

(** A decimal number that starts with a digit other than zero. *)
Definition leads_nonzero (d : Decimal.uint) : Prop :=
  match d with
  | Decimal.Nil | Decimal.D0 _ => False
  | _ => True
  end.

(** A text [json.loads] refuses. *)
Definition malformed (blob : str) : Prop := loads blob = JSONDecodeError.

End Json.

(** ** The database models *)

Module User.
Record t : Type := mk {
  id : Z;
  username : str;
  password : str;
  is_admin : bool
}.
End User.

Module Order.
Record t : Type := mk {
  id : Z;
  order_id : str;
  username : str;
  items_json : str;
  total_price : Z;
  status : str;
  created_at : datetime;
  completed_at : option datetime
}.

(** [order.status = s] *)
Definition set_status (s : str) (o : t) : t :=
  mk (id o) (order_id o) (username o) (items_json o) (total_price o)
     s (created_at o) (completed_at o).

(** [order.completed_at = d] *)
Definition set_completed_at (d : datetime) (o : t) : t :=
  mk (id o) (order_id o) (username o) (items_json o) (total_price o)
     (status o) (created_at o) (Some d).
End Order.

(** The status labels the source names. *)
Definition PENDING_PAYMENT : str := lit "待付款".
Definition PAID : str := lit "已付款".
Definition COMPLETED : str := lit "已完成".

(** The tables of [musmus.db]. *)
Record Db : Type := mkDb {
  orders : list Order.t;
  users : list User.t
}.

Definition empty_db : Db := mkDb [] [].

Inductive exn : Type :=
| IntegrityError      (* a UNIQUE constraint refused the row *)
| OverflowError       (* a Python int too large for an SQLite INTEGER *)
| JSONDecodeError     (* json.loads on a text that is not JSON *)
| TypeError           (* int(None) *)
| ValueError.         (* int() on a text that is not a number *)

(** The row id SQLite gives to a new row of an [INTEGER PRIMARY KEY]
    table: one more than the largest in use. *)
Definition next_id (os : list Order.t) : Z :=
  1 + fold_right Z.max 0 (map Order.id os).

Definition fits_int64 (z : Z) : bool :=
  (- 2 ^ 63 <=? z) && (z <? 2 ^ 63).

Definition order_id_taken (code : str) (os : list Order.t) : bool :=
  existsb (fun o => str_eqb (Order.order_id o) code) os.

(** [db.session.add(Order(order_id=.., username=.., items_json=..,
    total_price=..)); db.session.commit()].  The INSERT binds the
    parameters (an integer outside 64 bits cannot be bound), then the
    UNIQUE constraint of [order_id] is checked; the column defaults give
    [status] and [created_at], and [completed_at] is NULL.  A commit that
    raises leaves the table as it was. *)
Definition add_order (code uname blob : str) (total : Z)
    (default_now : datetime) (db : Db) : exn + Db :=
  if negb (fits_int64 total) then inl OverflowError
  else if order_id_taken code (orders db) then inl IntegrityError
  else
    inr (mkDb (orders db
               ++ [Order.mk (next_id (orders db)) code uname blob total
                            PENDING_PAYMENT default_now None])
              (users db)).

(** [Order.query.get(order_db_id)].  The id is bound as the parameter of
    the SELECT by primary key, which an integer outside 64 bits cannot be:
    the call raises [OverflowError] before any row is looked at.  Otherwise
    it gives the row of that id, or [None] when there is none. *)
Definition query_get (order_db_id : Z) (os : list Order.t)
  : exn + option Order.t :=
  if fits_int64 order_db_id
  then inr (find (fun o => Order.id o =? order_db_id) os)
  else inl OverflowError.

(** The UPDATE that [db.session.commit()] issues for a modified row. *)
Definition update_row (o' : Order.t) (os : list Order.t) : list Order.t :=
  map (fun o => if Order.id o =? Order.id o' then o' else o) os.

(** [.order_by(key.desc())] *)
Fixpoint insert_desc (key : Order.t -> Z) (o : Order.t) (l : list Order.t)
  : list Order.t :=
  match l with
  | [] => [o]
  | x :: l' => if key x <=? key o then o :: l else x :: insert_desc key o l'
  end.

Definition order_by_desc (key : Order.t -> Z) (l : list Order.t) : list Order.t :=
  fold_right (insert_desc key) [] l.

Definition completed_key (o : Order.t) : Z :=
  match Order.completed_at o with Some d => d | None => 0 end.

(** [for o in rows: o.items_list = json.loads(o.items_json)]; [None]
    where a call raises. *)
Fixpoint load_items_lists (rows : list Order.t)
  : option (list (Order.t * Json.json)) :=
  match rows with
  | [] => Some []
  | o :: rest =>
      match Json.loads (Order.items_json o) with
      | Json.Ok v =>
          match load_items_lists rest with
          | Some l => Some ((o, v) :: l)
          | None => None
          end
      | _ => None
      end
  end.

(** ** Sessions, requests and responses *)

Record Session : Type := mkSession {
  session_cart : option (list CartLine);   (* session['cart'], when set *)
  flashes : list str                       (* messages queued by flash() *)
}.

(** [session.get('cart', [])] *)
Definition get_cart (sess : Session) : list CartLine :=
  match session_cart sess with Some c => c | None => [] end.

(** [session.pop('cart', None)] *)
Definition pop_cart (sess : Session) : Session :=
  mkSession None (flashes sess).

(** [session['cart'] = c] *)
Definition set_cart (c : list CartLine) (sess : Session) : Session :=
  mkSession (Some c) (flashes sess).

Definition flash (msg : str) (sess : Session) : Session :=
  mkSession (session_cart sess) (flashes sess ++ [msg]).

Inductive method : Type := GET | POST.

Inductive endpoint : Type :=
| ep_index | ep_login | ep_cart | ep_admin_orders | ep_referrer.

Record order_info : Type := mkInfo {
  info_order_id : str;
  info_member_name : str;
  info_cart_list : list CartLine;
  info_total : Z
}.

Inductive page : Type :=
| cart_html (items : list CartLine) (total : Z)
            (past_orders : list (Order.t * Json.json))
| checkout_html (items : list CartLine) (total : Z)
| order_confirm_html (info : order_info)
| admin_dashboard_html
| admin_users_html (us : list User.t) (user_count : Z)
| admin_user_orders_html (uname : str) (os : list (Order.t * Json.json))
| admin_orders_html (pending completed : list (Order.t * Json.json)).

Inductive response : Type :=
| Redirect (target : endpoint)
| Render (p : page)
| Plain (body : str) (status_code : Z)
| InternalServerError (e : exn).

(** [return "權限不足", 403] *)
Definition forbidden : response := Plain (lit "權限不足") 403.

Definition view : Type := response * Session * Db.

(** Flask-Login's answer to an anonymous request on a [@login_required]
    view: its message is flashed and the browser is sent to [login_view]. *)
Definition unauthorized (sess : Session) (db : Db) : view :=
  (Redirect ep_login, flash (lit "Please log in to access this page.") sess, db).

(** [@login_required] *)
Definition login_required (current_user : option User.t)
    (sess : Session) (db : Db) (body : User.t -> view) : view :=
  match current_user with
  | Some u => body u
  | None => unauthorized sess db
  end.

(** ** The view functions *)

(** [/logout] *)
Definition logout (current_user : option User.t) (sess : Session) (db : Db)
  : view :=
  login_required current_user sess db (fun _ =>
    (Redirect ep_index, pop_cart sess, db)).

(** [/cart] *)
Definition cart (current_user : option User.t) (sess : Session) (db : Db)
  : view :=
  login_required current_user sess db (fun u =>
    let items := get_cart sess in
    let total := cart_total items in
    let past_orders :=
      order_by_desc Order.created_at
        (filter (fun o => str_eqb (Order.username o) (User.username u))
                (orders db)) in
    match load_items_lists past_orders with
    | Some listed => (Render (cart_html items total listed), sess, db)
    | None => (InternalServerError JSONDecodeError, sess, db)
    end).

(** [/add_to_cart].  [price_field] is the outcome of
    [int(request.form.get('price'))]: the number, or the exception it
    raises, which happens before the line is appended. *)
Definition add_to_cart (current_user : option User.t) (sess : Session) (db : Db)
    (game_name item_name : option str) (price_field : exn + Z) : view :=
  login_required current_user sess db (fun _ =>
    let cart := get_cart sess in
    match price_field with
    | inr p =>
        (Redirect ep_referrer,
         set_cart (cart ++ [mkCartLine game_name item_name p]) sess, db)
    | inl e => (InternalServerError e, sess, db)
    end).

(** [/clear_cart] *)
Definition clear_cart (current_user : option User.t) (sess : Session) (db : Db)
  : view :=
  (Redirect ep_cart, pop_cart sess, db).

(** [/checkout].  [now] is the clock read by the view for the order code,
    [default_now] the one read when the row is inserted. *)
Definition checkout (current_user : option User.t) (sess : Session) (db : Db)
    (m : method) (now default_now : datetime) : view :=
  login_required current_user sess db (fun u =>
    let cart_list := get_cart sess in
    match cart_list with
    | [] => (Redirect ep_cart, flash (lit "您的購物車是空的") sess, db)
    | _ :: _ =>
        let total_amount := cart_total cart_list in
        match m with
        | POST =>
            let order_id := strftime_YmdHMS now in
            match add_order order_id (User.username u) (Json.dumps cart_list)
                            total_amount default_now db with
            | inr db' =>
                (Render (order_confirm_html
                           (mkInfo order_id (User.username u)
                                   cart_list total_amount)),
                 pop_cart sess, db')
            | inl e => (InternalServerError e, sess, db)
            end
        | GET => (Render (checkout_html cart_list total_amount), sess, db)
        end
    end).

(** [/admin] *)
Definition admin_dashboard (current_user : option User.t) (sess : Session)
    (db : Db) : view :=
  login_required current_user sess db (fun u =>
    if negb (User.is_admin u) then (Redirect ep_index, sess, db)
    else (Render admin_dashboard_html, sess, db)).

(** [/admin/users] *)
Definition admin_users (current_user : option User.t) (sess : Session)
    (db : Db) : view :=
  login_required current_user sess db (fun u =>
    if negb (User.is_admin u) then (forbidden, sess, db)
    else
      (Render (admin_users_html (users db) (Z.of_nat (List.length (users db)))),
       sess, db)).

(** [/admin/user/<username>/orders] *)
Definition admin_user_orders (current_user : option User.t) (sess : Session)
    (db : Db) (uname : str) : view :=
  login_required current_user sess db (fun u =>
    if negb (User.is_admin u) then (forbidden, sess, db)
    else
      let rows :=
        order_by_desc Order.created_at
          (filter (fun o => str_eqb (Order.username o) uname) (orders db)) in
      match load_items_lists rows with
      | Some listed => (Render (admin_user_orders_html uname listed), sess, db)
      | None => (InternalServerError JSONDecodeError, sess, db)
      end).

(** The two queries of [/admin/orders]. *)
Definition pending_orders (db : Db) : list Order.t :=
  order_by_desc Order.created_at
    (filter (fun o => negb (str_eqb (Order.status o) COMPLETED)) (orders db)).

Definition recently_completed (now : datetime) (db : Db) : list Order.t :=
  let thirty_days_ago := now - timedelta_days 30 in
  order_by_desc completed_key
    (filter (fun o =>
               str_eqb (Order.status o) COMPLETED
               && match Order.completed_at o with
                  | Some d => thirty_days_ago <=? d
                  | None => false
                  end)
            (orders db)).

(** [/admin/orders] *)
Definition admin_orders (current_user : option User.t) (sess : Session)
    (db : Db) (now : datetime) : view :=
  login_required current_user sess db (fun u =>
    if negb (User.is_admin u) then (forbidden, sess, db)
    else
      let pending := pending_orders db in
      let completed := recently_completed now db in
      match load_items_lists (pending ++ completed) with
      | Some listed =>
          (Render (admin_orders_html
                     (firstn (List.length pending) listed)
                     (skipn (List.length pending) listed)),
           sess, db)
      | None => (InternalServerError JSONDecodeError, sess, db)
      end).

(** [/admin/update_order/<int:order_db_id>/<new_status>].  The URL
    converters give a natural number of any size and a non-empty text
    without a slash; the view itself puts no condition on either, and does
    not catch what the lookup raises. *)
Definition update_order_status (current_user : option User.t) (sess : Session)
    (db : Db) (order_db_id : Z) (new_status : str) (now : datetime) : view :=
  login_required current_user sess db (fun u =>
    if negb (User.is_admin u) then (forbidden, sess, db)
    else
      match query_get order_db_id (orders db) with
      | inl e => (InternalServerError e, sess, db)
      | inr (Some order) =>
          if str_eqb new_status COMPLETED
             && negb (str_eqb (Order.status order) PAID)
          then (Redirect ep_admin_orders, sess, db)
          else
            let order := Order.set_status new_status order in
            let order :=
              if str_eqb new_status COMPLETED
              then Order.set_completed_at now order
              else order in
            (Redirect ep_admin_orders, sess,
             mkDb (update_row order (orders db)) (users db))
      | inr None => (Redirect ep_admin_orders, sess, db)
      end).

(** ** Requests in sequence *)

(** A request on one of the routes above, with what its view reads from
    the form, the URL and the clock. *)
Inductive route : Type :=
| r_logout
| r_cart
| r_add_to_cart (game_name item_name : option str) (price_field : exn + Z)
| r_clear_cart
| r_checkout (m : method) (now default_now : datetime)
| r_admin_dashboard
| r_admin_users
| r_admin_user_orders (uname : str)
| r_admin_orders (now : datetime)
| r_update_order_status (order_db_id : Z) (new_status : str) (now : datetime).

(** A request arrives with the principal Flask-Login resolved for it and
    with the session its cookie carries. *)
Record Request : Type := mkRequest {
  current_user : option User.t;
  session : Session;
  target : route
}.

Definition dispatch (rq : Request) (db : Db) : view :=
  let u := current_user rq in
  let s := session rq in
  match target rq with
  | r_logout => logout u s db
  | r_cart => cart u s db
  | r_add_to_cart g i p => add_to_cart u s db g i p
  | r_clear_cart => clear_cart u s db
  | r_checkout m now dnow => checkout u s db m now dnow
  | r_admin_dashboard => admin_dashboard u s db
  | r_admin_users => admin_users u s db
  | r_admin_user_orders n => admin_user_orders u s db n
  | r_admin_orders now => admin_orders u s db now
  | r_update_order_status i st now => update_order_status u s db i st now
  end.

Definition db_after (rq : Request) (db : Db) : Db := snd (dispatch rq db).

(** The database after a sequence of requests, served one after another. *)
Definition serve (rqs : list Request) (db : Db) : Db :=
  fold_left (fun d rq => db_after rq d) rqs db.

(** ** Vocabulary for the properties of the ledger *)

(** What a request does to the database, as a relation labelled by the
    request: nothing; or a checkout appends its row, when the total fits
    and the code is free; or an administrator rewrites the status of a row,
    a request for [COMPLETED] being granted to a [PAID] row only, which
    then gets its [completed_at]. *)
Inductive ledger_step (rq : Request) (db : Db) : Db -> Prop :=
| step_same : ledger_step rq db db
| step_checkout (u : User.t) (now default_now : datetime) :
    current_user rq = Some u ->
    target rq = r_checkout POST now default_now ->
    get_cart (session rq) <> [] ->
    fits_int64 (cart_total (get_cart (session rq))) = true ->
    order_id_taken (strftime_YmdHMS now) (orders db) = false ->
    ledger_step rq db
      (mkDb (orders db
             ++ [Order.mk (next_id (orders db)) (strftime_YmdHMS now)
                          (User.username u)
                          (Json.dumps (get_cart (session rq)))
                          (cart_total (get_cart (session rq)))
                          PENDING_PAYMENT default_now None])
            (users db))
| step_relabel (u : User.t) (order : Order.t) (new_status : str)
               (now : datetime) :
    current_user rq = Some u -> User.is_admin u = true ->
    target rq = r_update_order_status (Order.id order) new_status now ->
    In order (orders db) ->
    new_status <> COMPLETED ->
    ledger_step rq db
      (mkDb (update_row (Order.set_status new_status order) (orders db))
            (users db))
| step_complete (u : User.t) (order : Order.t) (now : datetime) :
    current_user rq = Some u -> User.is_admin u = true ->
    target rq = r_update_order_status (Order.id order) COMPLETED now ->
    In order (orders db) ->
    Order.status order = PAID ->
    ledger_step rq db
      (mkDb (update_row
               (Order.set_completed_at now (Order.set_status COMPLETED order))
               (orders db))
            (users db)).

(** A row holds the snapshot of a cart: its [items_json] is the text of a
    non-empty line sequence and its [total_price] the total of that
    sequence. *)
Definition frozen_cart (o : Order.t) : Prop :=
  exists cart_list,
    cart_list <> []
    /\ Order.items_json o = Json.dumps cart_list
    /\ Order.total_price o = cart_total cart_list.

(** What the rows of the table satisfy whatever the requests were. *)
Record ledger_ok (db : Db) : Prop := mk_ledger_ok {
  ids_distinct : NoDup (map Order.id (orders db));
  codes_distinct : NoDup (map Order.order_id (orders db));
  completed_dated :
    Forall (fun o => Order.status o = COMPLETED -> Order.completed_at o <> None)
           (orders db);
  carts_frozen : Forall frozen_cart (orders db)
}.

(** The carts of the requests hold Unicode text. *)
Definition valid_request (rq : Request) : Prop :=
  Forall Json.valid_line (get_cart (session rq)).

(** Every row can be read back by [json.loads]. *)
Definition rows_load (db : Db) : Prop :=
  forall o, In o (orders db) ->
            exists v, Json.loads (Order.items_json o) = Json.Ok v.

(** A row before and after a request: its [completed_at] is kept, or the
    row was [PAID], is now [COMPLETED], and has a [completed_at]. *)
Definition keeps_or_completes (o o' : Order.t) : Prop :=
  Order.completed_at o' = Order.completed_at o
  \/ (Order.status o = PAID /\ Order.status o' = COMPLETED
      /\ Order.completed_at o' <> None).

(** What a request never touches in a row. *)
Definition same_snapshot (o o' : Order.t) : Prop :=
  Order.id o' = Order.id o /\ Order.order_id o' = Order.order_id o
  /\ Order.username o' = Order.username o
  /\ Order.items_json o' = Order.items_json o
  /\ Order.total_price o' = Order.total_price o
  /\ Order.created_at o' = Order.created_at o.

(** The place of a label on the path pending payment, paid, completed. *)
Definition status_rank (s : str) : option Z :=
  if str_eqb s PENDING_PAYMENT then Some 0
  else if str_eqb s PAID then Some 1
  else if str_eqb s COMPLETED then Some 2
  else None.

(** [b] is [a] or comes after it on the path. *)
Definition moves_forward (a b : str) : Prop :=
  match status_rank a, status_rank b with
  | Some x, Some y => x <= y
  | _, _ => False
  end.

(** The answer of a view. *)
Definition response_of (v : view) : response := fst (fst v).
Definition session_of (v : view) : Session := snd (fst v).
Definition db_of (v : view) : Db := snd v.

(** ** Sample data *)

Definition alice : User.t := User.mk 1 (lit "alice") (lit "pbkdf2:sha256") false.
Definition bob : User.t := User.mk 2 (lit "bob") (lit "pbkdf2:sha256") false.
Definition admin : User.t := User.mk 3 (lit "admin") (lit "pbkdf2:sha256") true.

Definition sample_cart : list CartLine :=
  [mkCartLine (Some (lit "原神")) (Some (lit "創世結晶 x60")) 100;
   mkCartLine (Some (lit "Honkai: Star Rail")) None 250].

Definition empty_session : Session := mkSession None [].
Definition alice_session : Session := mkSession (Some sample_cart) [].
Definition bob_session : Session :=
  mkSession (Some [mkCartLine (Some (lit "Valorant")) (Some (lit "VP 475")) 150]) [].

(** Noon of 2024-01-01, and instants after it. *)
Definition noon : datetime := mk_datetime 2024 1 1 12 0 0 0.
Definition after_noon (seconds : Z) : datetime := noon + seconds * US_PER_SECOND.

Definition rq_checkout (u : User.t) (sess : Session) (now : datetime) : Request :=
  mkRequest (Some u) sess (r_checkout POST now now).

Definition rq_update (order_db_id : Z) (new_status : str) (now : datetime)
  : Request :=
  mkRequest (Some admin) empty_session
            (r_update_order_status order_db_id new_status now).

(** Alice checks out; the administrator marks the order paid, then
    completed, then paid again, then completed again. *)
Definition lifecycle : list Request :=
  [rq_checkout alice alice_session noon;
   rq_update 1 PAID (after_noon 60);
   rq_update 1 COMPLETED (after_noon 120)].

Definition relabelled : list Request :=
  lifecycle ++ [rq_update 1 PAID (after_noon 180)].

Definition recompleted : list Request :=
  relabelled ++ [rq_update 1 COMPLETED (after_noon 240)].

(** A table with one row whose [items_json] is not JSON. *)
Definition damaged_db : Db :=
  mkDb [Order.mk 1 (lit "20240101120000") (lit "alice") (lit "{")
                 100 PENDING_PAYMENT noon None] [].

(** ** Accounts *)

Module Account.

Inductive place : Type := to_index | to_login | to_register.

Inductive template : Type := register_html | login_html.

(** [BadRequest] is the answer of Flask to [request.form[key]] on a form
    that does not carry the key. *)
Inductive answer : Type :=
| Go (p : place)
| Page (t : template)
| BadRequest.

(** [User.query.filter_by(username=name).first()] *)
Definition first_by_username (name : str) (us : list User.t) : option User.t :=
  find (fun u => str_eqb (User.username u) name) us.

(** The row id of a new user: one more than the largest in use. *)
Definition next_user_id (us : list User.t) : Z :=
  1 + fold_right Z.max 0 (map User.id us).

(** [user.is_admin = True] *)
Definition set_is_admin (u : User.t) : User.t :=
  User.mk (User.id u) (User.username u) (User.password u) true.

(** The UPDATE of a modified user row. *)
Definition update_user (u' : User.t) (us : list User.t) : list User.t :=
  map (fun u => if User.id u =? User.id u' then u' else u) us.

(** The start of the program: the user named [admin], when there is one,
    is made an administrator. *)
Definition bootstrap (db : Db) : Db :=
  match first_by_username (lit "admin") (users db) with
  | Some a => mkDb (orders db) (update_user (set_is_admin a) (users db))
  | None => db
  end.

Section Views.
(** The two calls of [werkzeug.security]: the hash of a password, which
    depends on a salt drawn for the call, and the check of a password
    against a hash. *)
Variable generate_password_hash : str -> str -> str.
Variable check_password_hash : str -> str -> bool.

(** [/register].  The fields are read in the order of the source, the
    hash is computed before the table is searched. *)
Definition register (sess : Session) (db : Db) (m : method)
    (form_username form_password : option str) (salt : str)
  : answer * Session * Db :=
  match m with
  | POST =>
      match form_username with
      | None => (BadRequest, sess, db)
      | Some username =>
          match form_password with
          | None => (BadRequest, sess, db)
          | Some pw =>
              let hashed_password := generate_password_hash salt pw in
              match first_by_username username (users db) with
              | Some _ =>
                  (Go to_register, flash (lit "帳號已存在") sess, db)
              | None =>
                  (Go to_login, flash (lit "註冊成功，請登入！") sess,
                   mkDb (orders db)
                        (users db
                         ++ [User.mk (next_user_id (users db)) username
                                     hashed_password false]))
              end
          end
      end
  | GET => (Page register_html, sess, db)
  end.

(** [/login].  The third component is the principal of the session after
    the request: [login_user(user)] replaces it, a failure keeps it.  The
    password field is read only when a user of that name was found. *)
Definition login (principal : option User.t) (sess : Session) (db : Db)
    (m : method) (form_username form_password : option str)
  : answer * Session * option User.t :=
  match m with
  | POST =>
      match form_username with
      | None => (BadRequest, sess, principal)
      | Some username =>
          match first_by_username username (users db) with
          | Some user =>
              match form_password with
              | None => (BadRequest, sess, principal)
              | Some pw =>
                  if check_password_hash (User.password user) pw
                  then (Go to_index, sess, Some user)
                  else (Page login_html,
                        flash (lit "登入失敗，請檢查帳號密碼") sess, principal)
              end
          | None =>
              (Page login_html,
               flash (lit "登入失敗，請檢查帳號密碼") sess, principal)
          end
      end
  | GET => (Page login_html, sess, principal)
  end.

(** A registration form, as it is posted. *)
Record signup : Type := mkSignup {
  signup_username : str;
  signup_password : str;
  signup_salt : str
}.

Definition register_db (f : signup) (db : Db) : Db :=
  snd (register empty_session db POST (Some (signup_username f))
                (Some (signup_password f)) (signup_salt f)).

(** The database after a sequence of posted registrations. *)
Definition register_all (fs : list signup) (db : Db) : Db :=
  fold_left (fun d f => register_db f d) fs db.
End Views.

(** What the tables of users satisfy whatever the registrations were. *)
Record users_ok (db : Db) : Prop := mk_users_ok {
  user_ids_distinct : NoDup (map User.id (users db));
  usernames_distinct : NoDup (map User.username (users db))
}.

End Account.

(** ** The catalogue *)

Module Catalogue.
Import Json.

Inductive error : Type :=
| DecodeError   (* json.load on a file that is not JSON *)
| KeyError      (* a key the dictionary does not have *)
| TypeError.    (* a value that cannot be subscripted, or has no length *)

Inductive answer : Type :=
| index_html (games : json)
| price_html (game_id : Z)
| activity_html
| about_html
| Jsonify (v : json) (status_code : Z)
| Raised (e : error).

(** [d[key]] on the dictionary built from the pairs of an object: the
    last pair of that key. *)
Fixpoint dict_get (key : str) (kvs : list (str * json)) : option json :=
  match kvs with
  | [] => None
  | (k, v) :: rest =>
      match dict_get key rest with
      | Some v' => Some v'
      | None => if str_eqb k key then Some v else None
      end
  end.

(** The number of keys of that dictionary. *)
Fixpoint dict_len (kvs : list (str * json)) : Z :=
  match kvs with
  | [] => 0
  | (k, _) :: rest =>
      match dict_get k rest with
      | Some _ => dict_len rest
      | None => 1 + dict_len rest
      end
  end.

(** [get_data()].  [file] is the text of [data.json], decoded and without
    its byte order mark, when the file exists. *)
Definition get_data (file : option str) : error + json :=
  match file with
  | Some content =>
      match loads content with
      | Ok v => inr v
      | _ => inl DecodeError
      end
  | None => inr (JObj [(lit "games", JArr [])])
  end.

(** [data['games']] *)
Definition games_of (data : json) : error + json :=
  match data with
  | JObj kvs =>
      match dict_get (lit "games") kvs with
      | Some v => inr v
      | None => inl KeyError
      end
  | _ => inl TypeError
  end.

(** [len(x)] *)
Definition py_len (x : json) : error + Z :=
  match x with
  | JArr vs => inr (Z.of_nat (List.length vs))
  | JStr s => inr (Z.of_nat (List.length s))
  | JObj kvs => inr (dict_len kvs)
  | _ => inl TypeError
  end.

(** [x[i]] for an integer [i] with [0 <= i < len(x)] *)
Definition py_item (x : json) (i : Z) : error + json :=
  match x with
  | JArr vs =>
      match nth_error vs (Z.to_nat i) with
      | Some v => inr v
      | None => inl TypeError
      end
  | JStr s =>
      match nth_error s (Z.to_nat i) with
      | Some c => inr (JStr [c])
      | None => inl TypeError
      end
  | JObj _ => inl KeyError
  | _ => inl TypeError
  end.

(** [/] *)
Definition index (file : option str) : answer :=
  match get_data file with
  | inl e => Raised e
  | inr data =>
      match games_of data with
      | inl e => Raised e
      | inr games => index_html games
      end
  end.

Definition not_found : answer :=
  Jsonify (JObj [(lit "error", JStr (lit "找不到資料"))]) 404.

(** [/api/game/<int:game_id>] *)
Definition get_game_api (file : option str) (game_id : Z) : answer :=
  match get_data file with
  | inl e => Raised e
  | inr data =>
      if 0 <=? game_id then
        match games_of data with
        | inl e => Raised e
        | inr games =>
            match py_len games with
            | inl e => Raised e
            | inr n =>
                if game_id <? n then
                  match py_item games game_id with
                  | inl e => Raised e
                  | inr g => Jsonify g 200
                  end
                else not_found
            end
        end
      else not_found
  end.

(** [/price/<int:game_id>], [/activity], [/about] *)
Definition price (game_id : Z) : answer := price_html game_id.
Definition activity : answer := activity_html.
Definition about : answer := about_html.

End Catalogue.

(** ** Adding lines one after another *)

(** The session after a logged-in user posted the lines in turn to
    [/add_to_cart]. *)
Definition add_lines (u : User.t) (lines : list CartLine) (sess : Session)
    (db : Db) : Session :=
  fold_left
    (fun s l => session_of (add_to_cart (Some u) s db (game l) (item l)
                                        (inr (price l))))
    lines sess.

(** ** Vocabulary for the further properties *)

(** Unicode text, as a test. *)
Definition scalarb (c : Z) : bool :=
  ((0 <=? c) && (c <? 0xd800)) || ((0xe000 <=? c) && (c <? 0x110000)).

Definition valid_optstrb (o : option str) : bool :=
  match o with Some s => forallb scalarb s | None => true end.

Definition valid_lineb (l : CartLine) : bool :=
  valid_optstrb (game l) && valid_optstrb (item l).

(** A row holds the snapshot of a cart of Unicode text whose total fits
    the column. *)
Definition sound_row (o : Order.t) : Prop :=
  exists cart_list,
    cart_list <> []
    /\ Forall Json.valid_line cart_list
    /\ Order.items_json o = Json.dumps cart_list
    /\ Order.total_price o = cart_total cart_list
    /\ fits_int64 (Order.total_price o) = true.

(** An order code as [strftime] writes it: fourteen decimal digits. *)
Definition fourteen_digits (code : str) : Prop :=
  List.length code = 14%nat /\ Forall (fun c => 48 <= c <= 57) code.

(** ** The calendar of [datetime] *)

(** [_is_leap], [_days_before_year] and [_ymd2ord] of [datetime.py]: the
    ordinal of a date. *)
Definition _is_leap (y : Z) : bool :=
  (y mod 4 =? 0) && (negb (y mod 100 =? 0) || (y mod 400 =? 0)).

Definition _days_before_year (y : Z) : Z :=
  let y' := y - 1 in y' * 365 + y' / 4 - y' / 100 + y' / 400.

Definition _ymd2ord (y m d : Z) : Z :=
  _days_before_year y + (_DAYS_BEFORE_MONTH m + b2z ((2 <? m) && _is_leap y)) + d.

(** The instants a [datetime] can denote: the years 1 to 9999. *)
Definition in_datetime_range (t : datetime) : Prop :=
  0 <= t < 3652059 * US_PER_DAY.

(** The day [r] of the cycle of 400 years (146097 days): its date is one of
    the years 1 to 400, and [_ymd2ord] gives its ordinal back. *)
Definition cycle_ok (r : Z) : bool :=
  let '(y, m, d) := _ord2ymd (r + 1) in
  (1 <=? y) && (y <=? 400) && (1 <=? m) && (m <=? 12)
  && (1 <=? d) && (d <=? 31) && (_ymd2ord y m d =? r + 1).

(** [f] holds of the [n] integers from [i] on. *)
Fixpoint all_from (f : Z -> bool) (i : Z) (n : nat) : bool :=
  match n with
  | O => true
  | S k => f i && all_from f (i + 1) k
  end.

(** * Properties *)

(** ** Strings and status labels *)

Lemma str_eqb_eq (a b : str) : str_eqb a b = true <-> a = b.
Proof.
  revert b; induction a as [|x a IH]; intros [|y b]; simpl.
  - tauto.
  - split; discriminate.
  - split; discriminate.
  - rewrite andb_true_iff, Z.eqb_eq, IH.
    split; [intros [-> ->]; reflexivity | intros H; injection H; auto].
Qed.

Lemma str_eqb_refl (a : str) : str_eqb a a = true.
Proof. apply str_eqb_eq; reflexivity. Qed.

Lemma str_eqb_neq (a b : str) : str_eqb a b = false <-> a <> b.
Proof.
  rewrite <- str_eqb_eq. destruct (str_eqb a b); split; intros H;
    try discriminate; try reflexivity; try congruence.
Qed.

Lemma PENDING_PAYMENT_not_PAID : PENDING_PAYMENT <> PAID.
Proof. apply str_eqb_neq; reflexivity. Qed.

Lemma PENDING_PAYMENT_not_COMPLETED : PENDING_PAYMENT <> COMPLETED.
Proof. apply str_eqb_neq; reflexivity. Qed.

Lemma COMPLETED_not_PAID : COMPLETED <> PAID.
Proof. apply str_eqb_neq; reflexivity. Qed.

Create HintDb status.
#[local] Hint Resolve PENDING_PAYMENT_not_PAID PENDING_PAYMENT_not_COMPLETED
  COMPLETED_not_PAID : status.

(** ** The cart total *)

Lemma fold_left_add_shift (items : list CartLine) (a : Z) :
  fold_left (fun acc it => acc + price it) items a
  = a + fold_right Z.add 0 (map price items).
Proof.
  revert a; induction items as [|l items IH]; intros a; simpl.
  - lia.
  - rewrite IH. lia.
Qed.

Lemma cart_total_sum (items : list CartLine) :
  cart_total items = fold_right Z.add 0 (map price items).
Proof. unfold cart_total. rewrite fold_left_add_shift. lia. Qed.

(** ** Rows and lookups *)

Lemma query_get_fits (i : Z) (os : list Order.t) (r : option Order.t) :
  query_get i os = inr r -> fits_int64 i = true.
Proof. unfold query_get. destruct (fits_int64 i); [reflexivity|discriminate]. Qed.


Lemma query_get_some (i : Z) (os : list Order.t) (o : Order.t) :
  query_get i os = inr (Some o) -> In o os /\ Order.id o = i.
Proof.
  unfold query_get. destruct (fits_int64 i); [|discriminate].
  intros H. injection H as H. apply find_some in H.
  destruct H as [Hin Hid]. apply Z.eqb_eq in Hid. auto.
Qed.


Lemma query_get_update_row (i : Z) (os : list Order.t) (o o' : Order.t) :
  query_get i os = inr (Some o) -> Order.id o' = Order.id o ->
  query_get i (update_row o' os) = inr (Some o').
Proof.
  intros Hq Hid. destruct (query_get_some _ _ _ Hq) as [_ Hi].
  unfold query_get in *. destruct (fits_int64 i); [|discriminate].
  injection Hq as Hq. f_equal.
  induction os as [|x os IH]; simpl in *.
  - discriminate.
  - destruct (Order.id x =? i) eqn:E.
    + apply Z.eqb_eq in E.
      replace (Order.id x =? Order.id o') with true
        by (symmetry; apply Z.eqb_eq; congruence).
      simpl. replace (Order.id o' =? i) with true
        by (symmetry; apply Z.eqb_eq; congruence).
      reflexivity.
    + destruct (Order.id x =? Order.id o') eqn:E'.
      * apply Z.eqb_eq in E'. apply Z.eqb_neq in E. congruence.
      * simpl. rewrite E. apply IH. exact Hq.
Qed.

(** ** json: the decoder answers, and reads back what the encoder wrote *)

Module JsonFacts.
Import Json.

Lemma skip_ws_length (s : str) : (List.length (skip_ws s) <= List.length s)%nat.
Proof.
  induction s as [|c s IH]; simpl; [lia|].
  destruct (is_ws c); simpl; lia.
Qed.

Lemma strip_prefix_length (p s r : str) :
  strip_prefix p s = Some r -> List.length s = (List.length p + List.length r)%nat.
Proof.
  revert s; induction p as [|a p IH]; intros [|b s]; simpl; intros H;
    try discriminate; try (injection H as <-; reflexivity).
  destruct (a =? b); [|discriminate]. rewrite (IH _ H). reflexivity.
Qed.

Lemma span_digits_length (s ds r : str) :
  span_digits s = (ds, r) -> List.length s = (List.length ds + List.length r)%nat.
Proof.
  revert ds r; induction s as [|c s IH]; simpl; intros ds r H.
  - injection H as <- <-. reflexivity.
  - destruct (is_digit c).
    + destruct (span_digits s) as [ds' r'] eqn:E. injection H as <- <-.
      simpl. rewrite (IH _ _ eq_refl). reflexivity.
    + injection H as <- <-. reflexivity.
Qed.

Lemma cons_char_some (c : Z) (o : option (str * str)) (v r : str) :
  cons_char c o = Some (v, r) -> exists v', o = Some (v', r) /\ v = c :: v'.
Proof.
  destruct o as [[v' r']|]; simpl; intros H; [|discriminate].
  injection H as <- <-. eauto.
Qed.

Lemma scanstring_shorter_aux (n : nat) :
  forall s v r, (List.length s <= n)%nat -> scanstring s = Some (v, r) ->
                (List.length r < List.length s)%nat.
Proof.
  induction n as [|n IH]; intros s v r Hn H.
  - destruct s; simpl in *; [discriminate | lia].
  - destruct s as [|c s]; [discriminate|].
    cbn [scanstring] in H. cbn [List.length] in Hn.
    repeat match type of H with
    | Some _ = Some _ => injection H as <- <-
    | None = Some _ => discriminate H
    | cons_char _ _ = Some _ =>
        apply cons_char_some in H; destruct H as (v' & H & ->);
        apply IH in H; cbn [List.length] in *; lia
    | context [match ?x with _ => _ end] => destruct x
    end; cbn [List.length] in *; lia.
Qed.

Lemma scanstring_shorter (s v r : str) :
  scanstring s = Some (v, r) -> (List.length r < List.length s)%nat.
Proof. apply (scanstring_shorter_aux (List.length s)). lia. Qed.

Lemma match_integer_shorter (s text r : str) :
  match_integer s = Some (text, r) -> (List.length r < List.length s)%nat.
Proof.
  unfold match_integer. intros H.
  destruct s as [|c s]; [discriminate|].
  destruct (c =? 45).
  - destruct s as [|c1 s]; [discriminate|].
    destruct (c1 =? 48); [injection H as <- <-; simpl; lia|].
    destruct (is_digit c1); [|discriminate].
    destruct (span_digits (c1 :: s)) as [ds r'] eqn:E.
    injection H as <- <-. apply span_digits_length in E.
    simpl in E. destruct ds as [|d ds].
    + simpl in E. cbn [span_digits] in *. simpl. lia.
    + simpl in *. lia.
  - destruct (c =? 48); [injection H as <- <-; simpl; lia|].
    destruct (is_digit c) eqn:Hd; [|discriminate].
    destruct (span_digits (c :: s)) as [ds r'] eqn:E.
    injection H as <- <-.
    cbn [span_digits] in E. rewrite Hd in E.
    destruct (span_digits s) as [ds' r''] eqn:E'. injection E as <- <-.
    apply span_digits_length in E'. simpl. lia.
Qed.

Lemma match_frac_length (s f r : str) :
  match_frac s = (f, r) -> (List.length r <= List.length s)%nat.
Proof.
  unfold match_frac. intros H. destruct s as [|c s].
  - injection H as <- <-. simpl; lia.
  - destruct (c =? 46).
    + destruct (span_digits s) as [ds r'] eqn:E.
      apply span_digits_length in E.
      destruct ds; injection H as <- <-; simpl in *; lia.
    + injection H as <- <-. simpl; lia.
Qed.

Lemma match_exp_length (s e r : str) :
  match_exp s = (e, r) -> (List.length r <= List.length s)%nat.
Proof.
  unfold match_exp. intros H. destruct s as [|c s].
  - injection H as <- <-. simpl; lia.
  - destruct ((c =? 101) || (c =? 69)).
    + destruct s as [|c1 s].
      * simpl in H. injection H as <- <-. simpl; lia.
      * destruct ((c1 =? 45) || (c1 =? 43)).
        -- destruct (span_digits s) as [ds r'] eqn:E.
           apply span_digits_length in E.
           destruct ds; injection H as <- <-; simpl in *; lia.
        -- destruct (span_digits (c1 :: s)) as [ds r'] eqn:E.
           apply span_digits_length in E.
           destruct ds; injection H as <- <-; simpl in *; lia.
    + injection H as <- <-. simpl; lia.
Qed.

Lemma scan_number_shorter (s : str) (v : json) (r : str) :
  scan_number s = Some (v, r) -> (List.length r < List.length s)%nat.
Proof.
  unfold scan_number. intros H.
  destruct (match_integer s) as [[text r0]|] eqn:Ei; [|discriminate].
  destruct (match_frac r0) as [f r1] eqn:Ef.
  destruct (match_exp r1) as [e r2] eqn:Ee.
  apply match_integer_shorter in Ei. apply match_frac_length in Ef.
  apply match_exp_length in Ee.
  destruct (is_empty f && is_empty e); injection H as <- <-; lia.
Qed.

Lemma scan_constant_shorter (s : str) (v : json) (r : str) :
  scan_constant s = Some (v, r) -> (List.length r < List.length s)%nat.
Proof.
  unfold scan_constant. intros H.
  repeat match type of H with
  | context [strip_prefix ?p s] =>
      let E := fresh "E" in
      destruct (strip_prefix p s) eqn:E;
      [apply strip_prefix_length in E; injection H as <- <-;
       simpl in E; lia|]
  end. discriminate.
Qed.

Lemma scan_literal_shorter (s : str) (v : json) (r : str) :
  scan_literal s = Some (v, r) -> (List.length r < List.length s)%nat.
Proof.
  unfold scan_literal. intros H.
  repeat match type of H with
  | context [strip_prefix ?p s] =>
      let E := fresh "E" in
      destruct (strip_prefix p s) eqn:E;
      [apply strip_prefix_length in E; injection H as <- <-;
       simpl in E; lia|]
  end.
  destruct (scan_number s) as [[v' r']|] eqn:En.
  - injection H as <- <-. eapply scan_number_shorter; eauto.
  - eapply scan_constant_shorter; eauto.
Qed.

(** One step of reasoning on an equation that says a scanner succeeded. *)
Ltac scan_step IHs IHe IHm H :=
  match type of H with
  | Ok _ = Ok _ => injection H as <- <-
  | JSONDecodeError = Ok _ => discriminate H
  | OutOfFuel = Ok _ => discriminate H
  | context [match skip_ws ?r with _ => _ end] =>
      let E := fresh "Ews" in
      pose proof (skip_ws_length r);
      destruct (skip_ws r) eqn:E
  | context [match scanstring ?r with _ => _ end] =>
      let E := fresh "Estr" in
      destruct (scanstring r) as [[? ?]|] eqn:E;
      [apply scanstring_shorter in E|]
  | context [match scan_literal ?r with _ => _ end] =>
      let E := fresh "Elit" in
      destruct (scan_literal r) as [[? ?]|] eqn:E;
      [apply scan_literal_shorter in E|]
  | context [match scan_once ?n ?r with _ => _ end] =>
      let E := fresh "Eso" in
      destruct (scan_once n r) as [[? ?]| |] eqn:E; [apply IHs in E| |]
  | context [match elements ?n ?r with _ => _ end] =>
      let E := fresh "Eel" in
      destruct (elements n r) as [[? ?]| |] eqn:E; [apply IHe in E| |]
  | context [match members ?n ?r with _ => _ end] =>
      let E := fresh "Eme" in
      destruct (members n r) as [[? ?]| |] eqn:E; [apply IHm in E| |]
  | context [if ?b then _ else _] => destruct b
  end.

Ltac ws_bounds :=
  repeat match goal with
  | H : context [skip_ws ?x] |- _ =>
      lazymatch goal with
      | _ : (List.length (skip_ws x) <= List.length x)%nat |- _ => fail
      | _ => pose proof (skip_ws_length x)
      end
  end.

Lemma scan_shorter (n : nat) :
  (forall s v r, scan_once n s = Ok (v, r) ->
                 (List.length r < List.length s)%nat) /\
  (forall s vs r, elements n s = Ok (vs, r) ->
                  (List.length r < List.length s)%nat) /\
  (forall s kvs r, members n s = Ok (kvs, r) ->
                   (List.length r < List.length s)%nat).
Proof.
  induction n as [|n (IHs & IHe & IHm)].
  - repeat split; intros; discriminate.
  - repeat split.
    + intros s v r H. cbn [scan_once] in H.
      destruct s as [|c s]; [discriminate|].
      repeat scan_step IHs IHe IHm H; ws_bounds; cbn [List.length] in *; lia.
    + intros s vs r H. cbn [elements] in H.
      repeat scan_step IHs IHe IHm H; ws_bounds; cbn [List.length] in *; lia.
    + intros s kvs r H. cbn [members] in H.
      repeat scan_step IHs IHe IHm H; ws_bounds; cbn [List.length] in *; lia.
Qed.

Ltac fuel_step IHs IHe IHm :=
  match goal with
  | |- Ok _ <> OutOfFuel => discriminate
  | |- JSONDecodeError <> OutOfFuel => discriminate
  | |- context [match skip_ws ?r with _ => _ end] =>
      let E := fresh "Ews" in
      pose proof (skip_ws_length r);
      destruct (skip_ws r) eqn:E
  | |- context [match scanstring ?r with _ => _ end] =>
      let E := fresh "Estr" in
      destruct (scanstring r) as [[? ?]|] eqn:E;
      [apply scanstring_shorter in E|]
  | |- context [match scan_literal ?r with _ => _ end] =>
      destruct (scan_literal r) as [[? ?]|]
  | |- context [match scan_once ?n ?r with _ => _ end] =>
      let E := fresh "Eso" in
      let F := fresh "Fso" in
      pose proof (IHs r) as F;
      destruct (scan_once n r) as [[? ?]| |] eqn:E;
      [apply (proj1 (scan_shorter n)) in E| |exfalso; apply F; [|reflexivity]]
  | |- context [match elements ?n ?r with _ => _ end] =>
      let E := fresh "Eel" in
      let F := fresh "Fel" in
      pose proof (IHe r) as F;
      destruct (elements n r) as [[? ?]| |] eqn:E;
      [| |exfalso; apply F; [|reflexivity]]
  | |- context [match members ?n ?r with _ => _ end] =>
      let E := fresh "Eme" in
      let F := fresh "Fme" in
      pose proof (IHm r) as F;
      destruct (members n r) as [[? ?]| |] eqn:E;
      [| |exfalso; apply F; [|reflexivity]]
  | |- context [if ?b then _ else _] => destruct b
  end.

(** The fuel [loads] gives is enough: twice the length of the text. *)
Lemma fuel_enough (n : nat) :
  (forall s, (2 * List.length s + 1 <= n)%nat -> scan_once n s <> OutOfFuel) /\
  (forall s, (2 * List.length s + 2 <= n)%nat -> elements n s <> OutOfFuel) /\
  (forall s, (2 * List.length s + 1 <= n)%nat -> members n s <> OutOfFuel).
Proof.
  induction n as [|n (IHs & IHe & IHm)].
  - repeat split; intros; lia.
  - repeat split.
    + intros s Hn. cbn [scan_once].
      destruct s as [|c s]; [discriminate|]. cbn [List.length] in Hn.
      repeat fuel_step IHs IHe IHm; ws_bounds; cbn [List.length] in *; lia.
    + intros s Hn. cbn [elements].
      repeat fuel_step IHs IHe IHm; ws_bounds; cbn [List.length] in *; lia.
    + intros s Hn. cbn [members].
      repeat fuel_step IHs IHe IHm; ws_bounds; cbn [List.length] in *; lia.
Qed.

(** [loads] always answers: a value or [JSONDecodeError]. *)
Lemma loads_total (s : str) : loads s <> OutOfFuel.
Proof.
  unfold loads.
  pose proof (proj1 (fuel_enough (2 * List.length s + 1)) (skip_ws s)) as F.
  pose proof (skip_ws_length s).
  destruct (scan_once (2 * List.length s + 1) (skip_ws s)) as [[v r]| |].
  - destruct (skip_ws r); discriminate.
  - discriminate.
  - exfalso. apply F; [lia | reflexivity].
Qed.

Lemma loads_cases (s : str) : malformed s \/ exists v, loads s = Ok v.
Proof.
  unfold malformed. pose proof (loads_total s) as H.
  destruct (loads s) as [v| |]; [right; eauto | left; reflexivity | contradiction].
Qed.

(** *** Bit operations of the surrogate pairs, as arithmetic *)

Lemma land_shifted_low (a b k : Z) :
  0 <= k -> 0 <= b < 2 ^ k -> Z.land (a * 2 ^ k) b = 0.
Proof.
  intros Hk Hb. apply Z.bits_inj'. intros m Hm.
  rewrite Z.land_spec, Z.bits_0.
  destruct (Z.lt_ge_cases m k) as [Hlt|Hge].
  - rewrite Z.mul_pow2_bits_low by lia. reflexivity.
  - rewrite <- (Z.mod_small b (2 ^ k)) by lia.
    rewrite Z.mod_pow2_bits_high by lia. apply andb_false_r.
Qed.

Lemma lor_shifted_low (a b k : Z) :
  0 <= k -> 0 <= b < 2 ^ k -> Z.lor (a * 2 ^ k) b = a * 2 ^ k + b.
Proof.
  intros Hk Hb. rewrite <- Z.add_lor_land.
  rewrite land_shifted_low by assumption. lia.
Qed.

Lemma high_surrogate (n : Z) :
  0 <= n < 0x100000 ->
  Z.lor 0xd800 (Z.land (Z.shiftr n 10) 0x3ff) = 0xd800 + n / 1024.
Proof.
  intros Hn. rewrite Z.shiftr_div_pow2 by lia.
  change 0x3ff with (Z.ones 10). rewrite Z.land_ones by lia.
  change (2 ^ 10) with 1024.
  rewrite Z.mod_small by (split; [apply Z.div_pos; lia | apply Z.div_lt_upper_bound; lia]).
  change 0xd800 with (54 * 2 ^ 10).
  apply lor_shifted_low; [lia|].
  change (2 ^ 10) with 1024.
  split; [apply Z.div_pos; lia | apply Z.div_lt_upper_bound; lia].
Qed.

Lemma low_surrogate (n : Z) :
  0 <= n -> Z.lor 0xdc00 (Z.land n 0x3ff) = 0xdc00 + n mod 1024.
Proof.
  intros Hn. change 0x3ff with (Z.ones 10). rewrite Z.land_ones by lia.
  change 0xdc00 with (55 * 2 ^ 10).
  apply lor_shifted_low; [lia|]. apply Z.mod_pos_bound. lia.
Qed.

Lemma join_surrogates (n : Z) :
  0 <= n < 0x100000 ->
  0x10000 + Z.lor (Z.shiftl (0xd800 + n / 1024 - 0xd800) 10)
                  (0xdc00 + n mod 1024 - 0xdc00)
  = 0x10000 + n.
Proof.
  intros Hn.
  replace (0xd800 + n / 1024 - 0xd800) with (n / 1024) by lia.
  replace (0xdc00 + n mod 1024 - 0xdc00) with (n mod 1024) by lia.
  rewrite Z.shiftl_mul_pow2 by lia.
  rewrite lor_shifted_low by (try lia; apply Z.mod_pos_bound; lia).
  change (2 ^ 10) with 1024.
  pose proof (Z.div_mod n 1024). lia.
Qed.

(** *** Hexadecimal escapes *)

Lemma hex_val_hex_digit (d : Z) :
  0 <= d < 16 -> hex_val (hex_digit d) = Some d.
Proof.
  intros Hd. unfold hex_val, hex_digit, is_digit.
  destruct (d <? 10) eqn:E.
  - apply Z.ltb_lt in E.
    replace (48 <=? 48 + d) with true by (symmetry; apply Z.leb_le; lia).
    replace (48 + d <=? 57) with true by (symmetry; apply Z.leb_le; lia).
    cbn [andb]. f_equal. lia.
  - apply Z.ltb_ge in E.
    replace (87 + d <=? 57) with false by (symmetry; apply Z.leb_gt; lia).
    rewrite andb_false_r.
    replace (97 <=? 87 + d) with true by (symmetry; apply Z.leb_le; lia).
    replace (87 + d <=? 102) with true by (symmetry; apply Z.leb_le; lia).
    cbn [andb]. f_equal. lia.
Qed.

Lemma decode_u_escape (n : Z) :
  0 <= n < 0x10000 ->
  decode_uXXXX (hex_digit (n / 4096 mod 16)) (hex_digit (n / 256 mod 16))
               (hex_digit (n / 16 mod 16)) (hex_digit (n mod 16)) = Some n.
Proof.
  intros Hn. unfold decode_uXXXX.
  rewrite !hex_val_hex_digit by (apply Z.mod_pos_bound; lia).
  f_equal. Z.div_mod_to_equations. lia.
Qed.

(** *** Strings *)

Lemma scanstring_u_single (h1 h2 h3 h4 uni : Z) (r2 : str) :
  decode_uXXXX h1 h2 h3 h4 = Some uni -> is_high uni = false ->
  scanstring (92 :: 117 :: h1 :: h2 :: h3 :: h4 :: r2)
  = cons_char uni (scanstring r2).
Proof.
  intros Hd Hh. unfold is_high in Hh.
  cbn [scanstring Z.eqb Pos.eqb]. rewrite Hd, Hh. reflexivity.
Qed.

Lemma scanstring_u_pair (h1 h2 h3 h4 g1 g2 g3 g4 hi lo : Z) (r4 : str) :
  decode_uXXXX h1 h2 h3 h4 = Some hi -> is_high hi = true ->
  decode_uXXXX g1 g2 g3 g4 = Some lo -> is_low lo = true ->
  scanstring (92 :: 117 :: h1 :: h2 :: h3 :: h4
              :: 92 :: 117 :: g1 :: g2 :: g3 :: g4 :: r4)
  = cons_char (0x10000 + Z.lor (Z.shiftl (hi - 0xd800) 10) (lo - 0xdc00))
              (scanstring r4).
Proof.
  intros Hd Hh Hd' Hl. unfold is_high in Hh. unfold is_low in Hl.
  cbn [scanstring Z.eqb Pos.eqb andb]. rewrite Hd, Hh, Hd', Hl. reflexivity.
Qed.

Lemma scanstring_plain (c : Z) (r : str) :
  32 <= c -> c <> 34 -> c <> 92 ->
  scanstring (c :: r) = cons_char c (scanstring r).
Proof.
  intros H1 H2 H3. cbn [scanstring].
  apply Z.eqb_neq in H2, H3. rewrite H2, H3.
  replace (c <? 32) with false by (symmetry; apply Z.ltb_ge; lia).
  reflexivity.
Qed.

Lemma scanstring_escape_char (c : Z) (more : str) :
  scalar c ->
  scanstring (escape_char c ++ more) = cons_char c (scanstring more).
Proof.
  intros Hc. unfold escape_char.
  destruct (c =? 34) eqn:E34; [apply Z.eqb_eq in E34; subst; reflexivity|].
  destruct (c =? 92) eqn:E92; [apply Z.eqb_eq in E92; subst; reflexivity|].
  destruct (c =? 10) eqn:E10; [apply Z.eqb_eq in E10; subst; reflexivity|].
  destruct (c =? 13) eqn:E13; [apply Z.eqb_eq in E13; subst; reflexivity|].
  destruct (c =? 9) eqn:E9; [apply Z.eqb_eq in E9; subst; reflexivity|].
  destruct (c =? 12) eqn:E12; [apply Z.eqb_eq in E12; subst; reflexivity|].
  destruct (c =? 8) eqn:E8; [apply Z.eqb_eq in E8; subst; reflexivity|].
  apply Z.eqb_neq in E34, E92.
  destruct ((32 <=? c) && (c <=? 126)) eqn:Ep.
  - apply andb_true_iff in Ep. destruct Ep as [Ep _]. apply Z.leb_le in Ep.
    apply scanstring_plain; assumption.
  - destruct (c <? 0x10000) eqn:Eb.
    + apply Z.ltb_lt in Eb. unfold u_escape. cbn [app].
      apply scanstring_u_single.
      * apply decode_u_escape. unfold scalar in Hc. lia.
      * unfold is_high, scalar in *.
        destruct (0xd800 <=? c) eqn:E1; [|reflexivity].
        apply Z.leb_le in E1. cbn [andb]. apply Z.leb_gt. lia.
    + apply Z.ltb_ge in Eb. unfold scalar in Hc.
      assert (Hn : 0 <= c - 0x10000 < 0x100000) by lia.
      rewrite high_surrogate by exact Hn.
      rewrite low_surrogate by lia.
      unfold u_escape. cbn [app].
      pose proof (Z.div_pos (c - 0x10000) 1024).
      assert (c - 0x10000 < 1024 * 1024) by lia.
      pose proof (Z.div_lt_upper_bound (c - 0x10000) 1024 1024).
      pose proof (Z.mod_pos_bound (c - 0x10000) 1024).
      rewrite (scanstring_u_pair _ _ _ _ _ _ _ _
                 (0xd800 + (c - 0x10000) / 1024)
                 (0xdc00 + (c - 0x10000) mod 1024)).
      * rewrite join_surrogates by exact Hn. f_equal. lia.
      * apply decode_u_escape. lia.
      * unfold is_high. apply andb_true_iff.
        split; apply Z.leb_le; lia.
      * apply decode_u_escape. lia.
      * unfold is_low. apply andb_true_iff.
        split; apply Z.leb_le; lia.
Qed.

Lemma scanstring_escaped (s rest : str) :
  Forall scalar s ->
  scanstring (flat_map escape_char s ++ 34 :: rest) = Some (s, rest).
Proof.
  induction 1 as [|c s Hc Hs IH]; [reflexivity|].
  cbn [flat_map]. rewrite <- app_assoc.
  rewrite scanstring_escape_char by exact Hc. rewrite IH. reflexivity.
Qed.

(** *** Integers *)

Lemma uint_of_chars_uint_chars (d : Decimal.uint) :
  uint_of_chars (uint_chars d) = d.
Proof.
  induction d; cbn [uint_chars uint_of_chars]; rewrite ?IHd; reflexivity.
Qed.

Lemma span_digits_uint_chars (d : Decimal.uint) (rest : str) :
  no_digit_head rest ->
  span_digits (uint_chars d ++ rest) = (uint_chars d, rest).
Proof.
  intros Hr. induction d; cbn [uint_chars app span_digits];
    try (change (is_digit 48) with true); try (change (is_digit 49) with true);
    try (change (is_digit 50) with true); try (change (is_digit 51) with true);
    try (change (is_digit 52) with true); try (change (is_digit 53) with true);
    try (change (is_digit 54) with true); try (change (is_digit 55) with true);
    try (change (is_digit 56) with true); try (change (is_digit 57) with true);
    cbv iota; rewrite ?IHd; try reflexivity.
  destruct rest as [|c rest]; [reflexivity|].
  cbn [span_digits]. simpl in Hr. rewrite Hr. reflexivity.
Qed.

Lemma nzhead_cases (d : Decimal.uint) :
  Decimal.nzhead d = Decimal.Nil \/ leads_nonzero (Decimal.nzhead d).
Proof. induction d; simpl; auto. Qed.

Lemma to_int_normal (z : Z) : Z.to_int z = Decimal.norm (Z.to_int z).
Proof. rewrite <- DecimalZ.to_of. rewrite DecimalZ.of_to. reflexivity. Qed.

Lemma to_int_shape (z : Z) :
  match Z.to_int z with
  | Decimal.Pos d => d = Decimal.zero \/ leads_nonzero d
  | Decimal.Neg d => leads_nonzero d
  end.
Proof.
  pose proof (to_int_normal z) as Hn.
  destruct (Z.to_int z) as [d|d]; cbn [Decimal.norm] in Hn.
  - injection Hn as Hn. unfold Decimal.unorm in Hn.
    destruct (nzhead_cases d) as [E|E].
    + rewrite E in Hn. left. exact Hn.
    + right. destruct (Decimal.nzhead d); try contradiction; rewrite Hn; exact I.
  - destruct (nzhead_cases d) as [E|E].
    + rewrite E in Hn. discriminate.
    + destruct (Decimal.nzhead d); try contradiction;
        injection Hn as Hn; rewrite Hn; exact I.
Qed.

Lemma number_stop_no_digit (rest : str) : number_stop rest -> no_digit_head rest.
Proof. destruct rest; simpl; tauto. Qed.

Lemma match_frac_stop (rest : str) : number_stop rest -> match_frac rest = ([], rest).
Proof.
  destruct rest as [|c rest]; [reflexivity|]. intros (_ & H & _).
  unfold match_frac. apply Z.eqb_neq in H. rewrite H. reflexivity.
Qed.

Lemma match_exp_stop (rest : str) : number_stop rest -> match_exp rest = ([], rest).
Proof.
  destruct rest as [|c rest]; [reflexivity|]. intros (_ & _ & H1 & H2).
  unfold match_exp. apply Z.eqb_neq in H1, H2. rewrite H1, H2. reflexivity.
Qed.

Lemma leads_nonzero_chars (d : Decimal.uint) :
  leads_nonzero d ->
  exists c t, uint_chars d = c :: t /\ is_digit c = true /\ (c =? 48) = false
              /\ (c =? 45) = false.
Proof.
  destruct d; simpl; intros H; try contradiction;
    eexists; eexists; repeat split.
Qed.

Lemma int_of_text_repr (z : Z) : int_of_text (int_repr z) = z.
Proof.
  unfold int_repr. pose proof (to_int_shape z) as Hs.
  pose proof (DecimalZ.of_to z) as Hz.
  destruct (Z.to_int z) as [d|d]; cbn [Z.of_int] in Hz.
  - unfold int_of_text. destruct Hs as [->|Hs].
    + simpl in *. exact Hz.
    + destruct (leads_nonzero_chars d Hs) as (c & t & E & _ & _ & Hm).
      rewrite E, Hm, <- E, uint_of_chars_uint_chars. exact Hz.
  - unfold int_of_text. change (45 =? 45) with true. cbv iota.
    rewrite uint_of_chars_uint_chars. exact Hz.
Qed.

Lemma match_integer_repr (z : Z) (rest : str) :
  number_stop rest ->
  match_integer (int_repr z ++ rest) = Some (int_repr z, rest).
Proof.
  intros Hr. unfold int_repr. pose proof (to_int_shape z) as Hs.
  destruct (Z.to_int z) as [d|d].
  - destruct Hs as [->|Hs]; [reflexivity|].
    pose proof (span_digits_uint_chars d rest (number_stop_no_digit _ Hr)) as Hsp.
    destruct (leads_nonzero_chars d Hs) as (c & t & E & Hd & H0 & Hm).
    rewrite E in *. unfold match_integer. cbn [app] in *.
    rewrite Hm, H0, Hd, Hsp. reflexivity.
  - pose proof (span_digits_uint_chars d rest (number_stop_no_digit _ Hr)) as Hsp.
    destruct (leads_nonzero_chars d Hs) as (c & t & E & Hd & H0 & Hm).
    rewrite E in *. unfold match_integer. cbn [app] in *.
    change (45 =? 45) with true. cbv iota.
    rewrite H0, Hd, Hsp. reflexivity.
Qed.

Lemma scan_number_repr (z : Z) (rest : str) :
  number_stop rest ->
  scan_number (int_repr z ++ rest) = Some (JInt z, rest).
Proof.
  intros Hr. unfold scan_number.
  rewrite match_integer_repr, match_frac_stop, match_exp_stop by exact Hr.
  cbn [is_empty andb]. rewrite int_of_text_repr. reflexivity.
Qed.

Lemma int_repr_head (z : Z) :
  exists c t, int_repr z = c :: t /\ (is_digit c = true \/ c = 45).
Proof.
  unfold int_repr. pose proof (to_int_shape z) as Hs.
  destruct (Z.to_int z) as [d|d].
  - destruct Hs as [->|Hs].
    + exists 48, []. split; [reflexivity | left; reflexivity].
    + destruct (leads_nonzero_chars d Hs) as (c & t & E & Hd & _).
      exists c, t. auto.
  - eexists; eexists; split; [reflexivity | right; reflexivity].
Qed.

Lemma scan_once_int (fuel : nat) (z : Z) (rest : str) :
  number_stop rest ->
  scan_once (S fuel) (int_repr z ++ rest) = Ok (JInt z, rest).
Proof.
  intros Hr. pose proof (scan_number_repr z rest Hr) as Hn.
  destruct (int_repr_head z) as (c & t & E & Hc).
  rewrite E in *. cbn [app] in *. cbn [scan_once].
  assert (Hrange : 45 <= c <= 57).
  { destruct Hc as [Hc| ->]; [|lia]. unfold is_digit in Hc.
    apply andb_true_iff in Hc. destruct Hc as [H1 H2].
    apply Z.leb_le in H1, H2. lia. }
  replace (c =? 34) with false by (symmetry; apply Z.eqb_neq; lia).
  replace (c =? 123) with false by (symmetry; apply Z.eqb_neq; lia).
  replace (c =? 91) with false by (symmetry; apply Z.eqb_neq; lia).
  unfold scan_literal.
  replace (strip_prefix (lit "null") (c :: t ++ rest)) with (@None str).
  2:{ change (lit "null") with [110; 117; 108; 108]. cbn [strip_prefix].
      replace (110 =? c) with false by (symmetry; apply Z.eqb_neq; lia).
      reflexivity. }
  replace (strip_prefix (lit "true") (c :: t ++ rest)) with (@None str).
  2:{ change (lit "true") with [116; 114; 117; 101]. cbn [strip_prefix].
      replace (116 =? c) with false by (symmetry; apply Z.eqb_neq; lia).
      reflexivity. }
  replace (strip_prefix (lit "false") (c :: t ++ rest)) with (@None str).
  2:{ change (lit "false") with [102; 97; 108; 115; 101]. cbn [strip_prefix].
      replace (102 =? c) with false by (symmetry; apply Z.eqb_neq; lia).
      reflexivity. }
  rewrite Hn. reflexivity.
Qed.

Lemma skip_ws_int_repr (z : Z) (rest : str) :
  skip_ws (int_repr z ++ rest) = int_repr z ++ rest.
Proof.
  destruct (int_repr_head z) as (c & t & E & Hc).
  rewrite E. cbn [app skip_ws].
  assert (Hrange : 45 <= c <= 57).
  { destruct Hc as [Hc| ->]; [|lia]. unfold is_digit in Hc.
    apply andb_true_iff in Hc. destruct Hc as [H1 H2].
    apply Z.leb_le in H1, H2. lia. }
  unfold is_ws.
  replace (c =? 32) with false by (symmetry; apply Z.eqb_neq; lia).
  replace (c =? 9) with false by (symmetry; apply Z.eqb_neq; lia).
  replace (c =? 10) with false by (symmetry; apply Z.eqb_neq; lia).
  replace (c =? 13) with false by (symmetry; apply Z.eqb_neq; lia).
  reflexivity.
Qed.

(** *** Cart lines *)

Lemma scan_once_optstr (fuel : nat) (o : option str) (rest : str) :
  valid_optstr o ->
  scan_once (S fuel) (skip_ws (32 :: dumps_optstr o ++ rest))
  = Ok (optstr_value o, rest).
Proof.
  intros Hv. destruct o as [s|]; [|reflexivity].
  unfold dumps_optstr, encode_basestring_ascii.
  change (skip_ws (32 :: ([34] ++ flat_map escape_char s ++ [34]) ++ rest))
    with (34 :: (flat_map escape_char s ++ [34]) ++ rest).
  rewrite <- app_assoc. cbn [app scan_once]. change (34 =? 34) with true.
  cbv iota. rewrite scanstring_escaped by exact Hv. reflexivity.
Qed.

Lemma members_more (fuel : nat) (s key r r1 r2 r3 r4 r5 : str) (v : json)
    (kvs : list (str * json)) :
  scanstring s = Some (key, r) -> skip_ws r = 58 :: r1 ->
  scan_once fuel (skip_ws r1) = Ok (v, r2) ->
  skip_ws r2 = 44 :: r3 -> skip_ws r3 = 34 :: r4 ->
  members fuel r4 = Ok (kvs, r5) ->
  members (S fuel) s = Ok ((key, v) :: kvs, r5).
Proof.
  intros H1 H2 H3 H4 H5 H6. cbn [members].
  rewrite H1, H2. change (58 =? 58) with true. cbv iota.
  rewrite H3, H4. change (44 =? 125) with false. change (44 =? 44) with true.
  cbv iota. rewrite H5. change (34 =? 34) with true. cbv iota.
  rewrite H6. reflexivity.
Qed.

Lemma members_last (fuel : nat) (s key r r1 r2 r3 : str) (v : json) :
  scanstring s = Some (key, r) -> skip_ws r = 58 :: r1 ->
  scan_once fuel (skip_ws r1) = Ok (v, r2) ->
  skip_ws r2 = 125 :: r3 ->
  members (S fuel) s = Ok ([(key, v)], r3).
Proof.
  intros H1 H2 H3 H4. cbn [members].
  rewrite H1, H2. change (58 =? 58) with true. cbv iota.
  rewrite H3, H4. change (125 =? 125) with true. cbv iota. reflexivity.
Qed.

Lemma dumps_line_head (l : CartLine) :
  exists t, dumps_line l = 123 :: 34 :: t.
Proof. unfold dumps_line. eexists. reflexivity. Qed.

Lemma scan_once_line (fuel : nat) (l : CartLine) (rest : str) :
  valid_line l ->
  scan_once (5 + fuel) (dumps_line l ++ rest) = Ok (line_value l, rest).
Proof.
  intros [Hg Hi]. unfold dumps_line, dumps_key, line_value.
  repeat rewrite <- app_assoc.
  change (lit "{") with [123]. change (lit "}") with [125].
  change (lit ", ") with [44; 32].
  change (lit "game") with [103; 97; 109; 101].
  change (lit "item") with [105; 116; 101; 109].
  change (lit "price") with [112; 114; 105; 99; 101].
  cbn [app]. change (5 + fuel)%nat with (S (S (S (S (S fuel))))).
  cbn [scan_once]. change (123 =? 34) with false. change (123 =? 123) with true.
  cbv iota. cbn [skip_ws]. change (is_ws 34) with false. cbv iota.
  change (34 =? 125) with false. change (34 =? 34) with true. cbv iota.
  erewrite members_more; [reflexivity | reflexivity | reflexivity | | | | ].
  - apply scan_once_optstr. exact Hg.
  - reflexivity.
  - reflexivity.
  - eapply members_more; [reflexivity | reflexivity | | | | ].
    + apply scan_once_optstr. exact Hi.
    + reflexivity.
    + reflexivity.
    + eapply members_last; [reflexivity | reflexivity | | ].
      * change (skip_ws (32 :: int_repr (price l) ++ 125 :: rest))
          with (skip_ws (int_repr (price l) ++ 125 :: rest)).
        rewrite skip_ws_int_repr. apply scan_once_int.
        unfold number_stop. repeat split; try reflexivity; discriminate.
      * reflexivity.
Qed.

Lemma dumps_lines_length (items : list CartLine) :
  (List.length items <= List.length (dumps_lines items))%nat.
Proof.
  induction items as [|l items IH]; [simpl; lia|].
  cbn [dumps_lines]. destruct (dumps_line_head l) as [t E].
  destruct items as [|l' items].
  - rewrite E. simpl. lia.
  - rewrite !length_app, E. simpl in *. lia.
Qed.

Lemma elements_lines (items : list CartLine) :
  forall (fuel : nat) (l : CartLine) (rest : str),
    Forall valid_line (l :: items) ->
    elements (6 + List.length items + fuel) (dumps_lines (l :: items) ++ 93 :: rest)
    = Ok (map line_value (l :: items), rest).
Proof.
  induction items as [|l' items IH]; intros fuel l rest Hv.
  - cbn [dumps_lines List.length map].
    change (6 + 0 + fuel)%nat with (S (5 + fuel)). cbn [elements].
    rewrite scan_once_line by (inversion Hv; assumption).
    reflexivity.
  - inversion Hv as [|? ? Hl Hv']; subst.
    change (dumps_lines (l :: l' :: items))
      with (dumps_line l ++ lit ", " ++ dumps_lines (l' :: items)).
    repeat rewrite <- app_assoc. change (lit ", ") with [44; 32]. cbn [app].
    change (6 + List.length (l' :: items) + fuel)%nat
      with (S (5 + (1 + List.length items + fuel))).
    cbn [elements]. rewrite scan_once_line by exact Hl.
    cbn [skip_ws]. change (is_ws 44) with false. cbv iota.
    change (44 =? 93) with false. change (44 =? 44) with true. cbv iota.
    change (skip_ws (32 :: dumps_lines (l' :: items) ++ 93 :: rest))
      with (skip_ws (dumps_lines (l' :: items) ++ 93 :: rest)).
    assert (Hws : skip_ws (dumps_lines (l' :: items) ++ 93 :: rest)
                  = dumps_lines (l' :: items) ++ 93 :: rest).
    { cbn [dumps_lines]. destruct (dumps_line_head l') as [t E].
      destruct items; rewrite E; reflexivity. }
    rewrite Hws.
    replace (5 + (1 + List.length items + fuel))%nat
      with (6 + List.length items + fuel)%nat by lia.
    rewrite IH by exact Hv'. reflexivity.
Qed.

(** Reading back what [dumps] wrote gives the cart. *)
Theorem loads_dumps (cart_list : list CartLine) :
  Forall valid_line cart_list ->
  loads (dumps cart_list) = Ok (cart_value cart_list).
Proof.
  intros Hv. unfold loads, dumps, cart_value.
  change (lit "[") with [91]. change (lit "]") with [93]. cbn [app].
  destruct cart_list as [|l items]; [reflexivity|].
  cbn [skip_ws]. change (is_ws 91) with false. cbv iota.
  pose proof (dumps_lines_length (l :: items)) as Hlen.
  cbn [List.length] in *. rewrite length_app in *. cbn [List.length] in *.
  set (n := List.length (dumps_lines (l :: items))) in *.
  replace (2 * S (n + 1) + 1)%nat
    with (S (6 + List.length items + (2 * n - List.length items - 2)))%nat by lia.
  cbn [scan_once]. change (91 =? 34) with false. change (91 =? 123) with false.
  change (91 =? 91) with true. cbv iota.
  assert (Hws : skip_ws (dumps_lines (l :: items) ++ [93])
                = dumps_lines (l :: items) ++ [93]).
  { cbn [dumps_lines]. destruct (dumps_line_head l) as [t E].
    destruct items; rewrite E; reflexivity. }
  rewrite Hws.
  destruct (dumps_line_head l) as [t E].
  assert (Hhead : exists t', dumps_lines (l :: items) ++ [93] = 123 :: t').
  { cbn [dumps_lines]. destruct items; rewrite E; eexists; reflexivity. }
  destruct Hhead as [t' Et]. rewrite Et.
  change (123 =? 93) with false. cbv iota. rewrite <- Et.
  rewrite elements_lines by exact Hv. reflexivity.
Qed.
End JsonFacts.

(** ** The rows of the ledger *)

Lemma next_id_fresh (os : list Order.t) (o : Order.t) :
  In o os -> Order.id o < next_id os.
Proof.
  unfold next_id. induction os as [|x os IH]; cbn [In map fold_right]; [tauto|].
  intros [->|Hin]; [lia|]. specialize (IH Hin). lia.
Qed.

Lemma order_id_taken_false (code : str) (os : list Order.t) :
  order_id_taken code os = false -> ~ In code (map Order.order_id os).
Proof.
  unfold order_id_taken. induction os as [|x os IH]; simpl; [tauto|].
  intros H. apply orb_false_iff in H. destruct H as [Hx Hos].
  apply str_eqb_neq in Hx. intros [E|Hin]; [congruence|]. exact (IH Hos Hin).
Qed.

Lemma order_id_taken_true (code : str) (os : list Order.t) :
  order_id_taken code os = true -> In code (map Order.order_id os).
Proof.
  unfold order_id_taken. induction os as [|x os IH]; simpl; [discriminate|].
  intros H. apply orb_true_iff in H. destruct H as [Hx|Hos].
  - apply str_eqb_eq in Hx. auto.
  - auto.
Qed.

Lemma ids_injective (os : list Order.t) (x y : Order.t) :
  NoDup (map Order.id os) -> In x os -> In y os ->
  Order.id x = Order.id y -> x = y.
Proof.
  induction os as [|z os IH]; simpl; [tauto|].
  intros Hnd Hx Hy E. inversion Hnd as [|? ? Hz Hnd']; subst.
  destruct Hx as [->|Hx], Hy as [->|Hy]; auto.
  - exfalso. apply Hz. rewrite E. apply in_map. exact Hy.
  - exfalso. apply Hz. rewrite <- E. apply in_map. exact Hx.
Qed.

Section UpdateRow.
Variables (os : list Order.t) (order o' : Order.t).
Hypothesis ids : NoDup (map Order.id os).
Hypothesis present : In order os.
Hypothesis same_id : Order.id o' = Order.id order.

(** With distinct ids, the UPDATE rewrites the row it was issued for and
    no other. *)
Lemma update_row_target (x : Order.t) :
  In x os -> (Order.id x =? Order.id o') = true -> x = order.
Proof.
  intros Hx E. apply Z.eqb_eq in E.
  apply (ids_injective os); auto. congruence.
Qed.

Lemma update_row_Forall2 (R : Order.t -> Order.t -> Prop) :
  (forall x, R x x) -> R order o' -> Forall2 R os (update_row o' os).
Proof.
  intros Hrefl Hr. unfold update_row.
  assert (H : forall x, In x os ->
              R x (if Order.id x =? Order.id o' then o' else x)).
  { intros x Hx. destruct (Order.id x =? Order.id o') eqn:E.
    - rewrite (update_row_target x Hx E). exact Hr.
    - apply Hrefl. }
  clear ids present. induction os as [|x l IH]; simpl; constructor.
  - apply H. simpl; auto.
  - apply IH. intros y Hy. apply H. simpl; auto.
Qed.

Lemma update_row_map {A : Type} (f : Order.t -> A) :
  f o' = f order -> map f (update_row o' os) = map f os.
Proof.
  intros Hf.
  pose proof (update_row_Forall2 (fun a b => f b = f a)
                                 (fun _ => eq_refl) Hf) as H.
  clear ids present. induction H; simpl; congruence.
Qed.

Lemma update_row_Forall (P : Order.t -> Prop) :
  Forall P os -> P o' -> Forall P (update_row o' os).
Proof.
  intros Hall Hp. unfold update_row. apply Forall_map.
  eapply Forall_impl; [|exact Hall]. intros x Hx.
  destruct (Order.id x =? Order.id o'); assumption.
Qed.
End UpdateRow.

(** ** Requests as steps of the ledger *)

Lemma add_order_step (code uname blob : str) (total : Z) (dnow : datetime)
    (db db' : Db) :
  add_order code uname blob total dnow db = inr db' ->
  fits_int64 total = true /\ order_id_taken code (orders db) = false
  /\ db' = mkDb (orders db
                 ++ [Order.mk (next_id (orders db)) code uname blob total
                              PENDING_PAYMENT dnow None])
                (users db).
Proof.
  unfold add_order. destruct (fits_int64 total); simpl; [|discriminate].
  destruct (order_id_taken code (orders db)); [discriminate|].
  intros H. injection H as <-. auto.
Qed.

Lemma checkout_step (rq : Request) (db : Db) (m : method)
    (now dnow : datetime) :
  target rq = r_checkout m now dnow ->
  ledger_step rq db
    (db_of (checkout (current_user rq) (session rq) db m now dnow)).
Proof.
  intros Ht. unfold checkout, login_required, unauthorized, db_of.
  destruct (current_user rq) as [u|] eqn:Eu; [|apply step_same].
  destruct (get_cart (session rq)) as [|l items] eqn:Ec; [apply step_same|].
  destruct m; [apply step_same|].
  destruct (add_order _ _ _ _ _ _) as [e|db'] eqn:E; [apply step_same|].
  apply add_order_step in E. destruct E as (Hf & Hfree & ->).
  cbn [snd]. rewrite <- Ec in *.
  apply step_checkout; try assumption. rewrite Ec. discriminate.
Qed.

Lemma update_order_status_step (rq : Request) (db : Db)
    (i : Z) (st : str) (now : datetime) :
  target rq = r_update_order_status i st now ->
  ledger_step rq db
    (db_of (update_order_status (current_user rq) (session rq) db i st now)).
Proof.
  intros Ht. unfold update_order_status, login_required, unauthorized, db_of.
  destruct (current_user rq) as [u|] eqn:Eu; [|apply step_same].
  destruct (User.is_admin u) eqn:Ea; cbn [negb]; [|apply step_same].
  destruct (query_get i (orders db)) as [e|[order|]] eqn:Eq;
    [apply step_same| |apply step_same].
  apply query_get_some in Eq. destruct Eq as [Hin <-].
  destruct (str_eqb st COMPLETED) eqn:Ec; cbn [andb].
  - apply str_eqb_eq in Ec. subst st.
    destruct (str_eqb (Order.status order) PAID) eqn:Ep; cbn [negb];
      [|apply step_same].
    apply str_eqb_eq in Ep. cbn [snd]. apply (step_complete rq db u); assumption.
  - apply str_eqb_neq in Ec. cbn [snd].
    apply (step_relabel rq db u order st now); assumption.
Qed.

Lemma dispatch_step (rq : Request) (db : Db) :
  ledger_step rq db (db_after rq db).
Proof.
  unfold db_after, dispatch. destruct (target rq) eqn:Et.
  - unfold logout, login_required, unauthorized.
    destruct (current_user rq); apply step_same.
  - unfold cart, login_required, unauthorized.
    destruct (current_user rq); [|apply step_same].
    destruct (load_items_lists _); apply step_same.
  - unfold add_to_cart, login_required, unauthorized.
    destruct (current_user rq); [|apply step_same].
    destruct price_field; apply step_same.
  - apply step_same.
  - apply checkout_step. exact Et.
  - unfold admin_dashboard, login_required, unauthorized.
    destruct (current_user rq) as [u|]; [|apply step_same].
    destruct (negb (User.is_admin u)); apply step_same.
  - unfold admin_users, login_required, unauthorized.
    destruct (current_user rq) as [u|]; [|apply step_same].
    destruct (negb (User.is_admin u)); apply step_same.
  - unfold admin_user_orders, login_required, unauthorized.
    destruct (current_user rq) as [u|]; [|apply step_same].
    destruct (negb (User.is_admin u)); [apply step_same|].
    destruct (load_items_lists _); apply step_same.
  - unfold admin_orders, login_required, unauthorized.
    destruct (current_user rq) as [u|]; [|apply step_same].
    destruct (negb (User.is_admin u)); [apply step_same|].
    destruct (load_items_lists _); apply step_same.
  - apply update_order_status_step. exact Et.
Qed.

(** ** What every reachable ledger satisfies *)

Lemma empty_db_ok : ledger_ok empty_db.
Proof. split; simpl; constructor. Qed.

Lemma NoDup_snoc {A : Type} (l : list A) (a : A) :
  NoDup l -> ~ In a l -> NoDup (l ++ [a]).
Proof.
  intros Hl Ha. apply (NoDup_Add (a := a) (l := l)).
  - rewrite <- (List.app_nil_r l) at 1. apply Add_app.
  - auto.
Qed.

Lemma Forall2_same {A : Type} (R : A -> A -> Prop) (l : list A) :
  (forall x, R x x) -> Forall2 R l l.
Proof. intros H. induction l; constructor; auto. Qed.

(** The cases of a step, for an invariant that is a [Forall] over the
    rows: the appended row satisfies it, and so does a rewritten row. *)
Ltac step_cases Hstep :=
  destruct Hstep as [|u now dnow Hu Ht Hne Hfit Hfree
                     |u order st now Hu Ha Ht Hin Hst
                     |u order now Hu Ha Ht Hin Hpaid];
  cbn [orders users].

Lemma ledger_step_ok (rq : Request) (db db' : Db) :
  ledger_ok db -> ledger_step rq db db' -> ledger_ok db'.
Proof.
  intros [Hids Hcodes Hdated Hfrozen] Hstep.
  assert (Hkept : forall order st,
             In order (orders db) ->
             frozen_cart (Order.set_status st order)
             /\ forall d, frozen_cart
                            (Order.set_completed_at d (Order.set_status st order))).
  { intros order st Hin. rewrite Forall_forall in Hfrozen.
    specialize (Hfrozen order Hin). split; [|intros d]; exact Hfrozen. }
  step_cases Hstep.
  - split; assumption.
  - split; cbn [orders]; rewrite ?map_app; cbn [map Order.id Order.order_id].
    + apply NoDup_snoc; [assumption|]. intros Hc.
      apply in_map_iff in Hc. destruct Hc as (o & E & Ho).
      apply next_id_fresh in Ho. lia.
    + apply NoDup_snoc; [assumption|]. apply order_id_taken_false. exact Hfree.
    + apply Forall_app. split; [assumption|]. constructor; [|constructor].
      cbn [Order.status]. intros E. exfalso.
      exact (PENDING_PAYMENT_not_COMPLETED E).
    + apply Forall_app. split; [assumption|]. constructor; [|constructor].
      exists (get_cart (session rq)). auto.
  - split; cbn [orders].
    + rewrite (update_row_map _ order) by auto. assumption.
    + rewrite (update_row_map _ order) by auto. assumption.
    + apply update_row_Forall; [assumption|].
      cbn [Order.set_status Order.status]. intros E. contradiction.
    + apply update_row_Forall; [assumption|]. apply Hkept. exact Hin.
  - split; cbn [orders].
    + rewrite (update_row_map _ order) by auto. assumption.
    + rewrite (update_row_map _ order) by auto. assumption.
    + apply update_row_Forall; [assumption|].
      cbn [Order.set_completed_at Order.completed_at]. discriminate.
    + apply update_row_Forall; [assumption|]. apply Hkept. exact Hin.
Qed.

Lemma serve_app (rqs rqs' : list Request) (db : Db) :
  serve (rqs ++ rqs') db = serve rqs' (serve rqs db).
Proof. unfold serve. apply fold_left_app. Qed.

(** An invariant of the steps of the requests that satisfy [Q] holds after
    any sequence of such requests. *)
Lemma serve_invariant (Q : Request -> Prop) (P : Db -> Prop) :
  (forall rq db db', Q rq -> P db -> ledger_step rq db db' -> P db') ->
  forall rqs db, Forall Q rqs -> P db -> P (serve rqs db).
Proof.
  intros Hstep rqs. induction rqs as [|rq rqs IH]; intros db HQ Hdb.
  - exact Hdb.
  - inversion HQ as [|? ? Hrq HQ']; subst.
    cbn [serve fold_left]. apply IH; [exact HQ'|].
    eapply Hstep; [exact Hrq | exact Hdb | apply dispatch_step].
Qed.

Lemma serve_ok (rqs : list Request) : ledger_ok (serve rqs empty_db).
Proof.
  apply (serve_invariant (fun _ => True)).
  - intros rq db db' _. apply ledger_step_ok.
  - apply Forall_forall. auto.
  - apply empty_db_ok.
Qed.

(** The rows a request finds are still there after it, in place, with
    the same snapshot; a [completed_at] is written by a completion only. *)
Lemma ledger_step_rows (rq : Request) (db db' : Db) :
  ledger_ok db -> ledger_step rq db db' ->
  Forall2 (fun o o' => same_snapshot o o' /\ keeps_or_completes o o')
          (orders db) (firstn (List.length (orders db)) (orders db')).
Proof.
  intros [Hids Hcodes Hdated Hfrozen] Hstep.
  assert (Hrefl : forall x, same_snapshot x x /\ keeps_or_completes x x).
  { intros x. split; [unfold same_snapshot; auto 10 | left; reflexivity]. }
  pose proof (Forall2_same
                (fun o o' => same_snapshot o o' /\ keeps_or_completes o o')
                (orders db) Hrefl) as Hsame.
  step_cases Hstep.
  - rewrite firstn_all. exact Hsame.
  - rewrite firstn_app, firstn_all, Nat.sub_diag. cbn [firstn].
    rewrite List.app_nil_r. exact Hsame.
  - replace (List.length (orders db))
      with (List.length (update_row (Order.set_status st order) (orders db)))
      by (unfold update_row; apply length_map).
    rewrite firstn_all. apply (update_row_Forall2 _ order); auto.
    split; [unfold same_snapshot; auto 10 | left; reflexivity].
  - replace (List.length (orders db))
      with (List.length
              (update_row (Order.set_completed_at now
                             (Order.set_status COMPLETED order)) (orders db)))
      by (unfold update_row; apply length_map).
    rewrite firstn_all. apply (update_row_Forall2 _ order); auto.
    split; [unfold same_snapshot; auto 10|]. right. repeat split; auto.
    cbn [Order.set_completed_at Order.completed_at]. discriminate.
Qed.

(** What checkouts wrote can be read back: when the carts of the requests
    hold Unicode text, [json.loads] accepts the [items_json] of every
    row. *)
Lemma ledger_step_rows_load (rq : Request) (db db' : Db) :
  valid_request rq -> rows_load db -> ledger_step rq db db' -> rows_load db'.
Proof.
  unfold rows_load. intros Hv Hdb Hstep.
  assert (Hkept : forall o' order,
             In order (orders db) ->
             Order.items_json o' = Order.items_json order ->
             forall o, In o (update_row o' (orders db)) ->
                       exists v, Json.loads (Order.items_json o) = Json.Ok v).
  { intros o' order Hin E.
    apply Forall_forall. apply update_row_Forall.
    - apply Forall_forall. exact Hdb.
    - rewrite E. apply Hdb. exact Hin. }
  step_cases Hstep.
  - exact Hdb.
  - intros o Ho. apply in_app_or in Ho. destruct Ho as [Ho|[<-|[]]]; [auto|].
    cbn [Order.items_json]. eexists. apply JsonFacts.loads_dumps. exact Hv.
  - apply (Hkept _ order); [exact Hin | reflexivity].
  - apply (Hkept _ order); [exact Hin | reflexivity].
Qed.

Lemma serve_rows_load (rqs : list Request) :
  Forall valid_request rqs -> rows_load (serve rqs empty_db).
Proof.
  intros Hv. apply (serve_invariant valid_request); [|exact Hv|].
  - intros rq db db'. apply ledger_step_rows_load.
  - intros o [].
Qed.

(** ** Checkout *)

(** C1.  For a non-empty cart, a checkout that succeeds (the order
    confirmation page is rendered) adds exactly one row to the [Order]
    table: its [total_price] is the sum of the prices of the cart lines, its
    [items_json] is [json.dumps] of the cart's line sequence (which
    [json.loads] reads back as that sequence), its status is the initial
    [待付款] with no [completed_at]; and the session has no cart after it. *)
Theorem checkout_creates_order (u : User.t) (sess sess' : Session)
    (db db' : Db) (now dnow : datetime) (info : order_info) :
  get_cart sess <> [] ->
  checkout (Some u) sess db POST now dnow
  = (Render (order_confirm_html info), sess', db') ->
  exists o,
    orders db' = orders db ++ [o] /\ users db' = users db
    /\ Order.total_price o = fold_right Z.add 0 (map price (get_cart sess))
    /\ info_total info = Order.total_price o
    /\ Order.items_json o = Json.dumps (get_cart sess)
    /\ (Forall Json.valid_line (get_cart sess) ->
        Json.loads (Order.items_json o)
        = Json.Ok (Json.cart_value (get_cart sess)))
    /\ Order.status o = PENDING_PAYMENT /\ Order.completed_at o = None
    /\ Order.username o = User.username u
    /\ Order.order_id o = strftime_YmdHMS now
    /\ info_order_id info = Order.order_id o
    /\ session_cart sess' = None /\ get_cart sess' = [].
Proof.
  intros Hne H. unfold checkout, login_required in H.
  destruct (get_cart sess) as [|l items] eqn:Ecart; [contradiction|].
  destruct (add_order _ _ _ _ _ _) as [e|db1] eqn:E; [discriminate|].
  apply add_order_step in E. destruct E as (_ & _ & ->).
  injection H as <- <- <-. eexists. cbn [orders users].
  split; [reflexivity|]. split; [reflexivity|].
  cbn [Order.total_price Order.items_json Order.status Order.completed_at
       Order.username Order.order_id info_total info_order_id
       pop_cart session_cart get_cart].
  repeat split; try reflexivity.
  - apply cart_total_sum.
  - apply JsonFacts.loads_dumps.
Qed.

Lemma checkout_creates_order_witness :
  get_cart alice_session <> []
  /\ exists o,
       orders (serve [rq_checkout alice alice_session noon] empty_db) = [o]
       /\ Order.total_price o = 350
       /\ Order.status o = PENDING_PAYMENT
       /\ Order.completed_at o = None.
Proof.
  assert (Hne : get_cart alice_session <> []) by discriminate.
  split; [exact Hne|].
  destruct (checkout_creates_order alice alice_session _ empty_db _ noon noon _
              Hne eq_refl)
    as (o & Ho & _ & Ht & _ & _ & _ & Hs & Hc & _).
  exists o. repeat split; assumption.
Defined.

(** When a checkout succeeds: exactly when the total fits an SQLite
    INTEGER and no row carries the code of this second. *)
Lemma checkout_succeeds_iff (u : User.t) (sess : Session) (db : Db)
    (now dnow : datetime) :
  get_cart sess <> [] ->
  ((exists info, response_of (checkout (Some u) sess db POST now dnow)
                 = Render (order_confirm_html info))
   <-> fits_int64 (cart_total (get_cart sess)) = true
       /\ order_id_taken (strftime_YmdHMS now) (orders db) = false).
Proof.
  intros Hne. unfold checkout, login_required, response_of, add_order.
  destruct (get_cart sess) as [|l items]; [contradiction|].
  destruct (fits_int64 _); cbn [negb].
  - destruct (order_id_taken _ _); cbn [fst].
    + split; [intros [info H]; discriminate | intros [_ H]; discriminate].
    + split; [auto | intros _; eexists; reflexivity].
  - cbn [fst]. split; [intros [info H]; discriminate | intros [H _]; discriminate].
Qed.

(** C5.  A checkout on an empty cart (the key absent from the session, or
    an empty list) fails: the browser is sent to the cart page (to the login
    page when nobody is logged in), whatever the method; the [Order] table
    is as it was and so is the cart of the session. *)
Theorem checkout_empty_cart (cu : option User.t) (sess : Session) (db : Db)
    (m : method) (now dnow : datetime) :
  get_cart sess = [] ->
  checkout cu sess db m now dnow
  = match cu with
    | Some _ => (Redirect ep_cart, flash (lit "您的購物車是空的") sess, db)
    | None => unauthorized sess db
    end
  /\ db_of (checkout cu sess db m now dnow) = db
  /\ session_cart (session_of (checkout cu sess db m now dnow))
     = session_cart sess.
Proof.
  intros He. unfold checkout, login_required, unauthorized, db_of, session_of.
  rewrite He. destruct cu; auto.
Qed.

Lemma checkout_empty_cart_witness :
  get_cart empty_session = []
  /\ checkout (Some alice) empty_session empty_db POST noon noon
     = (Redirect ep_cart, flash (lit "您的購物車是空的") empty_session, empty_db).
Proof.
  split; [reflexivity|].
  exact (proj1 (checkout_empty_cart (Some alice) empty_session empty_db POST
                  noon noon eq_refl)).
Defined.

(** ** The administrator's status update *)

(** C2.  An administrator's request to set an order to [已完成] is granted
    when the order is [已付款] and only then: from any other status the
    request is answered by the same redirect and changes nothing (neither
    the status nor [completed_at], nor any other row); so it is from
    [待付款], and so it is from [已完成], where no second [completed_at] is
    written. *)
Theorem completed_only_from_paid (u : User.t) (sess : Session) (db : Db)
    (order_db_id : Z) (now : datetime) (order : Order.t) :
  User.is_admin u = true ->
  query_get order_db_id (orders db) = inr (Some order) ->
  (Order.status order <> PAID ->
   update_order_status (Some u) sess db order_db_id COMPLETED now
   = (Redirect ep_admin_orders, sess, db))
  /\ (Order.status order = PENDING_PAYMENT ->
      update_order_status (Some u) sess db order_db_id COMPLETED now
      = (Redirect ep_admin_orders, sess, db))
  /\ (Order.status order = COMPLETED ->
      update_order_status (Some u) sess db order_db_id COMPLETED now
      = (Redirect ep_admin_orders, sess, db))
  /\ (Order.status order = PAID ->
      update_order_status (Some u) sess db order_db_id COMPLETED now
      = (Redirect ep_admin_orders, sess,
         mkDb (update_row
                 (Order.set_completed_at now (Order.set_status COMPLETED order))
                 (orders db))
              (users db))).
Proof.
  intros Ha Hq.
  assert (Hrej : Order.status order <> PAID ->
                 update_order_status (Some u) sess db order_db_id COMPLETED now
                 = (Redirect ep_admin_orders, sess, db)).
  { intros Hs. unfold update_order_status, login_required.
    rewrite Ha, Hq. cbn [negb]. rewrite str_eqb_refl.
    apply str_eqb_neq in Hs. rewrite Hs. reflexivity. }
  split; [exact Hrej|]. split; [|split].
  - intros E. apply Hrej. rewrite E. auto with status.
  - intros E. apply Hrej. rewrite E. auto with status.
  - intros E. unfold update_order_status, login_required.
    rewrite Ha, Hq. cbn [negb]. rewrite str_eqb_refl.
    apply str_eqb_eq in E. rewrite E. reflexivity.
Qed.

Lemma completed_only_from_paid_witness :
  let db := serve [rq_checkout alice alice_session noon] empty_db in
  User.is_admin admin = true
  /\ (exists order, query_get 1 (orders db) = inr (Some order)
                    /\ Order.status order = PENDING_PAYMENT)
  /\ update_order_status (Some admin) empty_session db 1 COMPLETED
                         (after_noon 60)
     = (Redirect ep_admin_orders, empty_session, db).
Proof.
  intros db. split; [reflexivity|].
  assert (Hq : query_get 1 (orders db)
               = inr (Some (Order.mk 1 (strftime_YmdHMS noon)
                                     (User.username alice)
                                     (Json.dumps sample_cart) 350
                                     PENDING_PAYMENT noon None)))
    by reflexivity.
  split; [eexists; split; [exact Hq | reflexivity]|].
  exact (proj1 (proj2 (completed_only_from_paid admin empty_session db 1
                         (after_noon 60) _ eq_refl Hq)) eq_refl).
Defined.




(** C6, as the code has it.  An administrator's status update gives the
    order the label that was asked for, whatever its status is (a label
    earlier on the path or off the path included), except that [已完成] is
    given to a [已付款] order only; a request that is not granted leaves
    the status as it was. *)
Theorem update_sets_requested_status (u : User.t) (sess : Session) (db : Db)
    (order_db_id : Z) (new_status : str) (now : datetime) (order : Order.t) :
  User.is_admin u = true ->
  query_get order_db_id (orders db) = inr (Some order) ->
  exists order',
    query_get order_db_id
      (orders (db_of (update_order_status (Some u) sess db order_db_id
                                          new_status now)))
    = inr (Some order')
    /\ Order.status order'
       = (if str_eqb new_status COMPLETED
             && negb (str_eqb (Order.status order) PAID)
          then Order.status order else new_status).
Proof.
  intros Ha Hq. unfold update_order_status, login_required, db_of.
  rewrite Ha, Hq. cbn [negb].
  destruct (str_eqb new_status COMPLETED
            && negb (str_eqb (Order.status order) PAID)) eqn:E.
  - exists order. split; [exact Hq | reflexivity].
  - cbn [snd orders]. eexists. split.
    + apply (query_get_update_row _ _ order); [exact Hq|].
      destruct (str_eqb new_status COMPLETED); reflexivity.
    + destruct (str_eqb new_status COMPLETED); reflexivity.
Qed.

Lemma update_sets_requested_status_witness :
  let db := serve [rq_checkout alice alice_session noon;
                   rq_update 1 PAID (after_noon 60)] empty_db in
  User.is_admin admin = true
  /\ (exists order, query_get 1 (orders db) = inr (Some order)
                    /\ Order.status order = PAID)
  /\ exists order',
       query_get 1 (orders (db_of (update_order_status
                                     (Some admin) empty_session db 1
                                     PENDING_PAYMENT (after_noon 120))))
       = inr (Some order')
       /\ Order.status order' = PENDING_PAYMENT.
Proof.
  intros db. split; [reflexivity|].
  assert (Hq : query_get 1 (orders db)
               = inr (Some (Order.mk 1 (strftime_YmdHMS noon)
                                     (User.username alice)
                                     (Json.dumps sample_cart) 350 PAID
                                     noon None)))
    by reflexivity.
  split; [eexists; split; [exact Hq | reflexivity]|].
  destruct (update_sets_requested_status admin empty_session db 1
              PENDING_PAYMENT (after_noon 120) _ eq_refl Hq)
    as (order' & Hq' & Hs).
  exists order'. split; [exact Hq' | exact Hs].
Defined.

(** C6, as the claim states it, fails: a paid order is set back to pending
    payment by an administrator's request. *)
Lemma status_moves_back :
  ~ (forall (rqs : list Request) (rq : Request) (i : Z) (o o' : Order.t),
        query_get i (orders (serve rqs empty_db)) = inr (Some o) ->
        query_get i (orders (db_after rq (serve rqs empty_db)))
        = inr (Some o') ->
        moves_forward (Order.status o) (Order.status o')).
Proof.
  intros H.
  specialize (H [rq_checkout alice alice_session noon;
                 rq_update 1 PAID (after_noon 60)]
                (rq_update 1 PENDING_PAYMENT (after_noon 120)) 1
                _ _ eq_refl eq_refl).
  vm_compute in H. apply H. reflexivity.
Qed.

(** ** completed_at *)

(** C3, as the code has it.  In the ledger that any sequence of requests
    builds, an order whose status is [已完成] has a [completed_at]; and a
    request leaves the [completed_at] of a row as it was unless it is the
    granted completion of a [已付款] row, which writes it. *)
Theorem completed_orders_are_dated :
  (forall (rqs : list Request) (o : Order.t),
      In o (orders (serve rqs empty_db)) ->
      Order.status o = COMPLETED -> Order.completed_at o <> None)
  /\ (forall (rqs : list Request) (rq : Request),
         Forall2 keeps_or_completes
           (orders (serve rqs empty_db))
           (firstn (List.length (orders (serve rqs empty_db)))
                   (orders (db_after rq (serve rqs empty_db))))).
Proof.
  split.
  - intros rqs o Hin. pose proof (completed_dated _ (serve_ok rqs)) as H.
    rewrite Forall_forall in H. exact (H o Hin).
  - intros rqs rq.
    pose proof (ledger_step_rows _ _ _ (serve_ok rqs)
                  (dispatch_step rq (serve rqs empty_db))) as H.
    eapply Forall2_impl; [|exact H]. intros a b [_ Hk]. exact Hk.
Qed.

Lemma completed_orders_are_dated_witness :
  exists o,
    In o (orders (serve lifecycle empty_db))
    /\ Order.status o = COMPLETED
    /\ Order.completed_at o <> None.
Proof.
  eexists. split; [left; reflexivity|]. split; [reflexivity|].
  apply (proj1 completed_orders_are_dated lifecycle); [left|]; reflexivity.
Defined.

(** C3, as the claim states it, fails: once completed, the order is
    relabelled paid and keeps its [completed_at]; completed again, it gets
    a second one. *)
Lemma completed_at_without_completed :
  ~ (forall (rqs : list Request) (o : Order.t),
        In o (orders (serve rqs empty_db)) ->
        (Order.completed_at o <> None <-> Order.status o = COMPLETED))
  /\ map Order.completed_at (orders (serve lifecycle empty_db))
     = [Some (after_noon 120)]
  /\ map Order.completed_at (orders (serve recompleted empty_db))
     = [Some (after_noon 240)].
Proof.
  split; [|split; reflexivity].
  intros H.
  assert (Hin : In (Order.mk 1 (strftime_YmdHMS noon) (User.username alice)
                             (Json.dumps sample_cart) 350 PAID noon
                             (Some (after_noon 120)))
                   (orders (serve relabelled empty_db)))
    by (left; reflexivity).
  apply H in Hin. cbn [Order.completed_at Order.status] in Hin.
  apply COMPLETED_not_PAID. symmetry. apply Hin. discriminate.
Qed.

(** ** Order codes *)

Lemma strftime_same_second (t1 t2 : datetime) :
  t1 / US_PER_SECOND = t2 / US_PER_SECOND ->
  strftime_YmdHMS t1 = strftime_YmdHMS t2.
Proof. unfold strftime_YmdHMS. intros ->. reflexivity. Qed.

(** The rows of the ledger never share a code: the UNIQUE constraint
    refuses a second row with a code in use. *)
Lemma order_codes_distinct (rqs : list Request) :
  NoDup (map Order.order_id (orders (serve rqs empty_db))).
Proof. exact (codes_distinct _ (serve_ok rqs)). Qed.

(** No request changes the code, nor any other part of the snapshot, of a
    row that is in the ledger. *)
Lemma order_code_kept (rqs : list Request) (rq : Request) :
  Forall2 same_snapshot
    (orders (serve rqs empty_db))
    (firstn (List.length (orders (serve rqs empty_db)))
            (orders (db_after rq (serve rqs empty_db)))).
Proof.
  pose proof (ledger_step_rows _ _ _ (serve_ok rqs)
                (dispatch_step rq (serve rqs empty_db))) as H.
  eapply Forall2_impl; [|exact H]. intros a b [Hs _]. exact Hs.
Qed.

(** A checkout in the second of an order that is in the ledger computes
    that order's code again, and its commit is refused. *)
Lemma checkout_in_taken_second (u : User.t) (sess : Session) (db : Db)
    (now dnow : datetime) (o : Order.t) :
  get_cart sess <> [] ->
  fits_int64 (cart_total (get_cart sess)) = true ->
  In o (orders db) -> Order.order_id o = strftime_YmdHMS now ->
  checkout (Some u) sess db POST now dnow
  = (InternalServerError IntegrityError, sess, db).
Proof.
  intros Hne Hfit Hin Hcode. unfold checkout, login_required, add_order.
  destruct (get_cart sess) as [|l items]; [contradiction|].
  rewrite Hfit. cbn [negb].
  replace (order_id_taken (strftime_YmdHMS now) (orders db)) with true;
    [reflexivity|].
  symmetry. unfold order_id_taken. apply existsb_exists.
  exists o. split; [exact Hin|]. apply str_eqb_eq. exact Hcode.
Qed.

(** C4 at two checkouts of one second.  Alice checks out at noon, Bob half
    a second later: both requests compute the code [20240101120000]; the
    first is committed, the second is refused by the UNIQUE constraint of
    [order_id] with an [IntegrityError] that the view does not handle, so
    that no order is created for Bob and his cart stays as it was. *)
Theorem same_second_checkouts_collide :
  let t1 := noon in
  let t2 := noon + 500000 in
  let db1 := db_of (checkout (Some alice) alice_session empty_db POST t1 t1) in
  strftime_YmdHMS t1 = lit "20240101120000"
  /\ strftime_YmdHMS t2 = lit "20240101120000"
  /\ map Order.order_id (orders db1) = [lit "20240101120000"]
  /\ checkout (Some bob) bob_session db1 POST t2 t2
     = (InternalServerError IntegrityError, bob_session, db1).
Proof. repeat split; reflexivity. Qed.

(** ** Who may do what *)

(** C7 at [/clear_cart].  The view is not behind [@login_required]: a
    request of nobody logged in pops the cart of the session it carries. *)
Theorem clear_cart_needs_no_login :
  (forall (sess : Session) (db : Db),
      clear_cart None sess db = (Redirect ep_cart, pop_cart sess, db))
  /\ session_cart alice_session = Some sample_cart
  /\ session_cart (session_of (clear_cart None alice_session empty_db)) = None.
Proof. repeat split; reflexivity. Qed.

(** The other views on the cart are behind [@login_required]: nobody
    logged in, they send the browser to the login page and leave the cart
    and the database as they were. *)
Lemma cart_views_need_login (sess : Session) (db : Db) :
  let refused := (Redirect ep_login,
                  flash (lit "Please log in to access this page.") sess, db) in
  cart None sess db = refused
  /\ (forall g i p, add_to_cart None sess db g i p = refused)
  /\ (forall m now dnow, checkout None sess db m now dnow = refused)
  /\ logout None sess db = refused
  /\ session_cart (session_of refused) = session_cart sess.
Proof. repeat split; reflexivity. Qed.

(** C8 at [/admin].  A logged-in user who is not an administrator is sent
    to the index page by a plain redirect; the database is as it was. *)
Theorem admin_dashboard_redirects (u : User.t) (sess : Session) (db : Db) :
  User.is_admin u = false ->
  admin_dashboard (Some u) sess db = (Redirect ep_index, sess, db).
Proof.
  intros Ha. unfold admin_dashboard, login_required. rewrite Ha. reflexivity.
Qed.

Lemma admin_dashboard_redirects_witness :
  User.is_admin alice = false
  /\ admin_dashboard (Some alice) alice_session empty_db
     = (Redirect ep_index, alice_session, empty_db).
Proof.
  split; [reflexivity|].
  exact (admin_dashboard_redirects alice alice_session empty_db eq_refl).
Defined.

(** The other views of the administrator answer 403 to a logged-in user
    who is not one, and leave the session and the database as they were;
    to nobody logged in, every one of them answers by the redirect to the
    login page. *)
Lemma admin_views_forbid (u : User.t) (sess : Session) (db : Db) :
  User.is_admin u = false ->
  admin_users (Some u) sess db = (forbidden, sess, db)
  /\ (forall n, admin_user_orders (Some u) sess db n = (forbidden, sess, db))
  /\ (forall now, admin_orders (Some u) sess db now = (forbidden, sess, db))
  /\ (forall i st now,
         update_order_status (Some u) sess db i st now = (forbidden, sess, db)).
Proof.
  intros Ha.
  unfold admin_users, admin_user_orders, admin_orders, update_order_status,
    login_required.
  rewrite Ha. repeat split; reflexivity.
Qed.

(** ** Listings *)

Lemma In_insert_desc (key : Order.t -> Z) (o x : Order.t) (l : list Order.t) :
  In x (insert_desc key o l) <-> x = o \/ In x l.
Proof.
  induction l as [|y l IH]; cbn [insert_desc In].
  - intuition congruence.
  - destruct (key y <=? key o); cbn [In]; rewrite ?IH; intuition congruence.
Qed.

Lemma In_order_by_desc (key : Order.t -> Z) (x : Order.t) (l : list Order.t) :
  In x (order_by_desc key l) <-> In x l.
Proof.
  unfold order_by_desc. induction l as [|y l IH]; cbn [fold_right In].
  - tauto.
  - rewrite In_insert_desc, IH. intuition congruence.
Qed.

Lemma load_items_lists_raises (rows : list Order.t) (o : Order.t) :
  In o rows -> Json.malformed (Order.items_json o) ->
  load_items_lists rows = None.
Proof.
  unfold Json.malformed. intros Hin Hbad.
  induction rows as [|x rows IH]; [contradiction|].
  cbn [load_items_lists]. destruct Hin as [->|Hin].
  - rewrite Hbad. reflexivity.
  - rewrite (IH Hin). destruct (Json.loads (Order.items_json x)); reflexivity.
Qed.

Lemma load_items_lists_loads (rows : list Order.t) :
  (forall o, In o rows -> exists v, Json.loads (Order.items_json o) = Json.Ok v) ->
  exists listed, load_items_lists rows = Some listed /\ map fst listed = rows.
Proof.
  induction rows as [|x rows IH]; intros H.
  - exists []. split; reflexivity.
  - cbn [load_items_lists].
    destruct (H x (or_introl eq_refl)) as [v ->].
    destruct IH as (listed & -> & E); [intros o Ho; apply H; right; exact Ho|].
    eexists. split; [reflexivity|]. cbn [map fst]. rewrite E. reflexivity.
Qed.

(** C9, as the code has it.  When the [items_json] of an order that a
    listing reads is not JSON, [json.loads] raises [JSONDecodeError] and
    no view catches it: the request of the customer's cart page, of the
    administrator's per-user list and of the administrator's order list
    ends in an internal server error, the session and the database as
    they were. *)
Theorem listing_raises_on_malformed (u : User.t) (sess : Session) (db : Db)
    (now : datetime) (o : Order.t) :
  In o (orders db) ->
  Json.malformed (Order.items_json o) ->
  (Order.username o = User.username u ->
   cart (Some u) sess db = (InternalServerError JSONDecodeError, sess, db))
  /\ (User.is_admin u = true ->
      admin_user_orders (Some u) sess db (Order.username o)
      = (InternalServerError JSONDecodeError, sess, db))
  /\ (User.is_admin u = true ->
      (Order.status o <> COMPLETED
       \/ exists d, Order.completed_at o = Some d
                    /\ now - timedelta_days 30 <= d) ->
      admin_orders (Some u) sess db now
      = (InternalServerError JSONDecodeError, sess, db)).
Proof.
  intros Hin Hbad. split; [|split].
  - intros Hu. unfold cart, login_required.
    rewrite (load_items_lists_raises _ o); [reflexivity| |exact Hbad].
    apply In_order_by_desc. apply filter_In. split; [exact Hin|].
    apply str_eqb_eq. exact Hu.
  - intros Ha. unfold admin_user_orders, login_required. rewrite Ha.
    cbn [negb].
    rewrite (load_items_lists_raises _ o); [reflexivity| |exact Hbad].
    apply In_order_by_desc. apply filter_In. split; [exact Hin|].
    apply str_eqb_refl.
  - intros Ha Hlisted. unfold admin_orders, login_required. rewrite Ha.
    cbn [negb].
    rewrite (load_items_lists_raises _ o); [reflexivity| |exact Hbad].
    apply in_or_app.
    destruct (str_eqb (Order.status o) COMPLETED) eqn:Es.
    + right. destruct Hlisted as [Hs|(d & Hd & Hrecent)].
      * apply str_eqb_eq in Es. contradiction.
      * unfold recently_completed. apply In_order_by_desc. apply filter_In.
        split; [exact Hin|]. rewrite Es, Hd. cbn [andb].
        apply Z.leb_le. exact Hrecent.
    + left. unfold pending_orders. apply In_order_by_desc. apply filter_In.
      split; [exact Hin|]. rewrite Es. reflexivity.
Qed.

Lemma listing_raises_on_malformed_witness :
  (exists o, In o (orders damaged_db)
             /\ Json.malformed (Order.items_json o)
             /\ Order.username o = User.username alice)
  /\ cart (Some alice) alice_session damaged_db
     = (InternalServerError JSONDecodeError, alice_session, damaged_db).
Proof.
  assert (Hin : In (Order.mk 1 (lit "20240101120000") (lit "alice") (lit "{")
                             100 PENDING_PAYMENT noon None)
                   (orders damaged_db)) by (left; reflexivity).
  assert (Hbad : Json.malformed (lit "{")) by reflexivity.
  split; [eexists; split; [exact Hin | split; [exact Hbad | reflexivity]]|].
  exact (proj1 (listing_raises_on_malformed alice alice_session damaged_db
                  noon _ Hin Hbad) eq_refl).
Defined.

(** C9, as the claim states it, fails: over a table with a damaged row,
    the order list of the administrator is an internal server error, the
    unhandled exception and no answer of the view. *)
Lemma listing_crashes_on_damaged_row :
  ~ (forall (cu : option User.t) (sess : Session) (db : Db) (now : datetime)
            (o : Order.t) (e : exn),
        In o (orders db) -> Json.malformed (Order.items_json o) ->
        response_of (admin_orders cu sess db now) <> InternalServerError e).
Proof.
  intros H.
  apply (H (Some admin) empty_session damaged_db noon
           (Order.mk 1 (lit "20240101120000") (lit "alice") (lit "{")
                     100 PENDING_PAYMENT noon None)
           JSONDecodeError).
  - left. reflexivity.
  - reflexivity.
  - reflexivity.
Qed.

(** On a table whose rows can be read back, the listings are rendered:
    here the cart page, with the past orders of the user. *)
Lemma cart_page_renders (u : User.t) (sess : Session) (db : Db) :
  rows_load db ->
  exists listed,
    cart (Some u) sess db
    = (Render (cart_html (get_cart sess) (cart_total (get_cart sess)) listed),
       sess, db)
    /\ map fst listed
       = order_by_desc Order.created_at
           (filter (fun o => str_eqb (Order.username o) (User.username u))
                   (orders db)).
Proof.
  intros Hload. unfold cart, login_required.
  destruct (load_items_lists_loads
              (order_by_desc Order.created_at
                 (filter (fun o => str_eqb (Order.username o) (User.username u))
                         (orders db))))
    as (listed & E & Hrows).
  - intros o Ho. apply Hload. apply In_order_by_desc in Ho.
    apply filter_In in Ho. tauto.
  - exists listed. rewrite E. auto.
Qed.

(** ** A purchase from end to end *)

(** Alice puts two lines priced 100 and 250 in her cart and checks out:
    one order of 350 pending payment.  The administrator marks it paid,
    then completed.  Her cart page then lists that one order, completed and
    dated, with the two lines read back from the snapshot. *)
Example purchase_end_to_end :
  let line1 := mkCartLine (Some (lit "原神")) (Some (lit "創世結晶 x60")) 100 in
  let line2 := mkCartLine (Some (lit "Honkai: Star Rail")) None 250 in
  let s1 := session_of (add_to_cart (Some alice) empty_session empty_db
                                    (game line1) (item line1) (inr 100)) in
  let s2 := session_of (add_to_cart (Some alice) s1 empty_db
                                    (game line2) (item line2) (inr 250)) in
  let db3 := serve [rq_checkout alice s2 noon;
                    rq_update 1 PAID (after_noon 60);
                    rq_update 1 COMPLETED (after_noon 120)] empty_db in
  let done := Order.mk 1 (lit "20240101120000") (lit "alice")
                       (Json.dumps [line1; line2]) 350 COMPLETED noon
                       (Some (after_noon 120)) in
  get_cart s2 = [line1; line2]
  /\ orders db3 = [done]
  /\ cart (Some alice) empty_session db3
     = (Render (cart_html [] 0 [(done, Json.cart_value [line1; line2])]),
        empty_session, db3).
Proof. repeat split; reflexivity. Qed.

(** The order list of the administrator shows a completion of today and
    leaves out one of thirty-one days ago. *)
Example recently_completed_window :
  let today := after_noon (40 * 86400) in
  let row (i : Z) (code : str) (done : datetime) :=
    Order.mk i code (lit "alice") (Json.dumps sample_cart) 350
             COMPLETED noon (Some done) in
  let db := mkDb [row 1 (lit "20240101120000") (today - timedelta_days 31);
                  row 2 (lit "20240101120001") today] [] in
  map Order.id (recently_completed today db) = [2].
Proof. reflexivity. Qed.

(** * Further properties *)

Lemma valid_lines_checked (cart_list : list CartLine) :
  forallb valid_lineb cart_list = true -> Forall Json.valid_line cart_list.
Proof.
  assert (Hs : forall s, forallb scalarb s = true -> Forall Json.scalar s).
  { intros s H. apply Forall_forall. intros c Hc.
    rewrite forallb_forall in H. specialize (H c Hc).
    unfold scalarb in H. unfold Json.scalar.
    apply orb_true_iff in H.
    destruct H as [H|H]; apply andb_true_iff in H; destruct H as [H1 H2];
      apply Z.leb_le in H1; apply Z.ltb_lt in H2; lia. }
  assert (Ho : forall o, valid_optstrb o = true -> Json.valid_optstr o).
  { intros [s|] H; [apply Hs; exact H | exact I]. }
  intros H. apply Forall_forall. intros l Hl.
  rewrite forallb_forall in H. specialize (H l Hl).
  unfold valid_lineb in H. apply andb_true_iff in H. destruct H as [H1 H2].
  split; apply Ho; assumption.
Qed.

(** ** Checkout, all or nothing *)

(** X1.  Whatever the principal, the session, the table, the method and
    the clock: either the checkout renders the confirmation page, one row
    was appended and the session has no cart, or the table and the cart of
    the session are as they were. *)
Theorem checkout_all_or_nothing (cu : option User.t) (sess : Session)
    (db : Db) (m : method) (now dnow : datetime) :
  let v := checkout cu sess db m now dnow in
  (exists info o,
      response_of v = Render (order_confirm_html info)
      /\ orders (db_of v) = orders db ++ [o]
      /\ users (db_of v) = users db
      /\ session_cart (session_of v) = None)
  \/ (db_of v = db
      /\ session_cart (session_of v) = session_cart sess
      /\ forall info, response_of v <> Render (order_confirm_html info)).
Proof.
  cbv zeta. unfold checkout, login_required, unauthorized, response_of,
    db_of, session_of.
  destruct cu as [u|]; [|right; repeat split; discriminate].
  destruct (get_cart sess) as [|l items]; [right; repeat split; discriminate|].
  destruct m; [right; repeat split; discriminate|].
  destruct (add_order _ _ _ _ _ _) as [e|db'] eqn:E.
  - right. repeat split; discriminate.
  - apply add_order_step in E. destruct E as (_ & _ & ->).
    left. eexists. eexists. cbn [fst snd orders users pop_cart session_cart].
    repeat split.
Qed.



(** ** The cart *)

Lemma add_to_cart_session (u : User.t) (sess : Session) (db : Db)
    (l : CartLine) :
  session_of (add_to_cart (Some u) sess db (game l) (item l) (inr (price l)))
  = set_cart (get_cart sess ++ [l]) sess.
Proof. destruct l. reflexivity. Qed.

(** X3.  Lines posted one after another to [/add_to_cart] by a logged-in
    user are appended to the cart in the order they came, repeated lines
    kept; the total of the cart grows by the sum of their prices. *)
Theorem add_lines_appends (u : User.t) (lines : list CartLine)
    (sess : Session) (db : Db) :
  get_cart (add_lines u lines sess db) = get_cart sess ++ lines
  /\ cart_total (get_cart (add_lines u lines sess db))
     = cart_total (get_cart sess) + fold_right Z.add 0 (map price lines)
  /\ flashes (add_lines u lines sess db) = flashes sess.
Proof.
  assert (H : get_cart (add_lines u lines sess db) = get_cart sess ++ lines
              /\ flashes (add_lines u lines sess db) = flashes sess).
  { unfold add_lines. revert sess.
    induction lines as [|l lines IH]; intros sess; cbn [fold_left].
    - rewrite List.app_nil_r. auto.
    - rewrite add_to_cart_session.
      destruct (IH (set_cart (get_cart sess ++ [l]) sess)) as [Hc Hf].
      rewrite Hc, Hf. cbn [set_cart get_cart session_cart flashes].
      rewrite <- app_assoc. auto. }
  destruct H as [Hc Hf]. split; [exact Hc|]. split; [|exact Hf].
  rewrite Hc, !cart_total_sum, map_app.
  induction (map price (get_cart sess)) as [|p ps IH]; cbn [app fold_right];
    lia.
Qed.

(** ** What the listings show *)

Lemma load_items_lists_spec (rows : list Order.t)
    (listed : list (Order.t * Json.json)) :
  load_items_lists rows = Some listed ->
  Forall2 (fun o p => fst p = o /\ Json.loads (Order.items_json o) = Json.Ok (snd p))
          rows listed.
Proof.
  revert listed. induction rows as [|o rows IH]; intros listed H;
    cbn [load_items_lists] in H.
  - injection H as <-. constructor.
  - destruct (Json.loads (Order.items_json o)) as [v| |] eqn:E;
      try discriminate.
    destruct (load_items_lists rows) as [l|]; [|discriminate].
    injection H as <-. constructor; [split; [reflexivity | exact E]|].
    apply IH. reflexivity.
Qed.

Lemma load_items_lists_rows (rows : list Order.t)
    (listed : list (Order.t * Json.json)) :
  load_items_lists rows = Some listed -> map fst listed = rows.
Proof.
  intros H. apply load_items_lists_spec in H.
  induction H as [|o p rows listed [Hp _] _ IH]; cbn [map]; congruence.
Qed.

Lemma load_items_lists_In (rows : list Order.t)
    (listed : list (Order.t * Json.json)) (o : Order.t) (v : Json.json) :
  load_items_lists rows = Some listed ->
  In o rows -> Json.loads (Order.items_json o) = Json.Ok v ->
  In (o, v) listed.
Proof.
  intros H. apply load_items_lists_spec in H.
  induction H as [|o' p rows listed [Hp Hl] _ IH]; cbn [In]; [tauto|].
  intros [->|Hin] Hv.
  - left. destruct p as [o'' v']. cbn [fst snd] in *. subst. congruence.
  - right. auto.
Qed.

Lemma insert_desc_sorted (key : Order.t -> Z) (o : Order.t) (l : list Order.t) :
  StronglySorted (fun a b => key b <= key a) l ->
  StronglySorted (fun a b => key b <= key a) (insert_desc key o l).
Proof.
  induction 1 as [|x l Hl IH Hx]; cbn [insert_desc].
  - repeat constructor.
  - destruct (key x <=? key o) eqn:E.
    + apply Z.leb_le in E. constructor; [constructor; assumption|].
      constructor; [exact E|].
      rewrite Forall_forall in *. intros y Hy. specialize (Hx y Hy). lia.
    + apply Z.leb_gt in E. constructor; [exact IH|].
      apply Forall_forall. intros y Hy. apply In_insert_desc in Hy.
      destruct Hy as [->|Hy]; [lia|].
      rewrite Forall_forall in Hx. auto.
Qed.

Lemma order_by_desc_sorted (key : Order.t -> Z) (l : list Order.t) :
  StronglySorted (fun a b => key b <= key a) (order_by_desc key l).
Proof.
  unfold order_by_desc. induction l as [|x l IH]; cbn [fold_right].
  - constructor.
  - apply insert_desc_sorted. exact IH.
Qed.

Lemma insert_desc_perm (key : Order.t -> Z) (o : Order.t) (l : list Order.t) :
  Permutation (o :: l) (insert_desc key o l).
Proof.
  induction l as [|x l IH]; cbn [insert_desc]; [reflexivity|].
  destruct (key x <=? key o); [reflexivity|].
  rewrite perm_swap. constructor. exact IH.
Qed.

Lemma order_by_desc_perm (key : Order.t -> Z) (l : list Order.t) :
  Permutation l (order_by_desc key l).
Proof.
  unfold order_by_desc. induction l as [|x l IH]; cbn [fold_right];
    [reflexivity|].
  rewrite <- insert_desc_perm. constructor. exact IH.
Qed.

(** X4.  On a table whose rows can be read back, the cart page of a
    logged-in user lists the orders of that user, all of them and no order
    of anybody else, each one once for each of its rows, the newest first,
    each with the lines read back from its [items_json]. *)
Theorem cart_lists_own_orders (u : User.t) (sess : Session) (db : Db) :
  rows_load db ->
  exists listed,
    cart (Some u) sess db
    = (Render (cart_html (get_cart sess) (cart_total (get_cart sess)) listed),
       sess, db)
    /\ Permutation (map fst listed)
         (filter (fun o => str_eqb (Order.username o) (User.username u))
                 (orders db))
    /\ (forall o, In o (map fst listed)
                  <-> In o (orders db) /\ Order.username o = User.username u)
    /\ StronglySorted
         (fun a b => Order.created_at b <= Order.created_at a)
         (map fst listed)
    /\ Forall (fun p => Json.loads (Order.items_json (fst p)) = Json.Ok (snd p))
              listed.
Proof.
  intros Hload.
  destruct (cart_page_renders u sess db Hload) as (listed & Hc & Hrows).
  exists listed. split; [exact Hc|]. rewrite Hrows.
  split; [symmetry; apply order_by_desc_perm|].
  split; [|split; [apply order_by_desc_sorted|]].
  - intros o. rewrite In_order_by_desc, filter_In, str_eqb_eq. tauto.
  - unfold cart, login_required in Hc.
    destruct (load_items_lists _) as [l|] eqn:E; [|discriminate].
    injection Hc as <-. apply load_items_lists_spec in E.
    clear Hrows. induction E as [|o p rows l [Hp Hl] _ IH]; constructor; auto.
    rewrite Hp. exact Hl.
Qed.

Lemma cart_lists_own_orders_witness :
  let db := serve lifecycle empty_db in
  rows_load db
  /\ exists listed,
       cart (Some alice) empty_session db
       = (Render (cart_html [] 0 listed), empty_session, db)
       /\ List.length listed = 1%nat.
Proof.
  intros db.
  assert (Hload : rows_load db).
  { intros o [<-|[]]. eexists. reflexivity. }
  split; [exact Hload|].
  destruct (cart_lists_own_orders alice empty_session db Hload)
    as (listed & Hc & Hp & _).
  exists listed. split; [exact Hc|].
  apply Permutation_length in Hp. rewrite length_map in Hp. exact Hp.
Defined.

(** What a checkout that rendered the confirmation page did. *)
Lemma checkout_confirmed (u : User.t) (sess sess' : Session) (db db' : Db)
    (now dnow : datetime) (info : order_info) :
  checkout (Some u) sess db POST now dnow
  = (Render (order_confirm_html info), sess', db') ->
  get_cart sess <> []
  /\ fits_int64 (cart_total (get_cart sess)) = true
  /\ order_id_taken (strftime_YmdHMS now) (orders db) = false
  /\ info = mkInfo (strftime_YmdHMS now) (User.username u) (get_cart sess)
                   (cart_total (get_cart sess))
  /\ sess' = pop_cart sess
  /\ db' = mkDb (orders db
                 ++ [Order.mk (next_id (orders db)) (strftime_YmdHMS now)
                              (User.username u) (Json.dumps (get_cart sess))
                              (cart_total (get_cart sess))
                              PENDING_PAYMENT dnow None])
                (users db).
Proof.
  unfold checkout, login_required. intros H.
  destruct (get_cart sess) as [|l items]; [discriminate|].
  destruct (add_order _ _ _ _ _ _) as [e|db1] eqn:E; [discriminate|].
  apply add_order_step in E. destruct E as (Hf & Hfree & ->).
  injection H as <- <- <-. repeat split; auto. discriminate.
Qed.

(** X5.  After a checkout that succeeded, the cart page of the user shows
    an empty cart and, among the past orders, the new order with the lines
    of the cart that was checked out and their total. *)
Theorem checkout_then_cart_page (u : User.t) (sess sess' : Session)
    (db db' : Db) (now dnow : datetime) (info : order_info) :
  rows_load db ->
  Forall Json.valid_line (get_cart sess) ->
  checkout (Some u) sess db POST now dnow
  = (Render (order_confirm_html info), sess', db') ->
  exists listed o,
    cart (Some u) sess' db' = (Render (cart_html [] 0 listed), sess', db')
    /\ In (o, Json.cart_value (get_cart sess)) listed
    /\ Order.order_id o = info_order_id info
    /\ Order.total_price o = fold_right Z.add 0 (map price (get_cart sess)).
Proof.
  intros Hload Hv H.
  destruct (checkout_confirmed _ _ _ _ _ _ _ _ H)
    as (_ & _ & _ & -> & -> & ->).
  set (o := Order.mk (next_id (orders db)) (strftime_YmdHMS now)
                     (User.username u) (Json.dumps (get_cart sess))
                     (cart_total (get_cart sess)) PENDING_PAYMENT dnow None).
  set (db' := mkDb (orders db ++ [o]) (users db)).
  assert (Hload' : rows_load db').
  { intros x Hx. cbn [db' orders] in Hx. apply in_app_or in Hx.
    destruct Hx as [Hx|[<-|[]]]; [auto|].
    eexists. apply JsonFacts.loads_dumps. exact Hv. }
  destruct (cart_page_renders u (pop_cart sess) db' Hload')
    as (listed & Hpage & Hrows).
  change (get_cart (pop_cart sess)) with (@nil CartLine) in Hpage.
  exists listed, o. split; [exact Hpage|].
  split; [|split; [reflexivity | apply cart_total_sum]].
  unfold cart, login_required in Hpage.
  destruct (load_items_lists _) as [l|] eqn:E; [|discriminate].
  injection Hpage as <-.
  eapply load_items_lists_In; [exact E| |].
  - apply In_order_by_desc. apply filter_In. split.
    + cbn [db' orders]. apply in_or_app. right. left. reflexivity.
    + apply str_eqb_eq. reflexivity.
  - apply JsonFacts.loads_dumps. exact Hv.
Qed.

Lemma checkout_then_cart_page_witness :
  rows_load empty_db
  /\ Forall Json.valid_line (get_cart alice_session)
  /\ exists listed o,
       cart (Some alice) empty_session
            (serve [rq_checkout alice alice_session noon] empty_db)
       = (Render (cart_html [] 0 listed), empty_session,
          serve [rq_checkout alice alice_session noon] empty_db)
       /\ In (o, Json.cart_value sample_cart) listed
       /\ Order.total_price o = 350.
Proof.
  assert (Hload : rows_load empty_db) by (intros o []).
  assert (Hv : Forall Json.valid_line (get_cart alice_session))
    by (apply valid_lines_checked; reflexivity).
  split; [exact Hload|]. split; [exact Hv|].
  destruct (checkout_then_cart_page alice alice_session _ empty_db _ noon noon _
              Hload Hv eq_refl)
    as (listed & o & Hc & Hin & _ & Ht).
  exists listed, o. split; [exact Hc|]. split; [exact Hin | exact Ht].
Defined.

(** ** The ledger, whatever the requests *)

Lemma ledger_step_sound_rows (rq : Request) (db db' : Db) :
  valid_request rq -> Forall sound_row (orders db) ->
  ledger_step rq db db' -> Forall sound_row (orders db').
Proof.
  intros Hv Hdb Hstep.
  assert (Hkept : forall order st,
             In order (orders db) ->
             sound_row (Order.set_status st order)
             /\ forall d, sound_row
                            (Order.set_completed_at d (Order.set_status st order))).
  { intros order st Hin. rewrite Forall_forall in Hdb.
    specialize (Hdb order Hin). split; [|intros d]; exact Hdb. }
  step_cases Hstep.
  - exact Hdb.
  - apply Forall_app. split; [exact Hdb|]. constructor; [|constructor].
    exists (get_cart (session rq)). cbn [Order.items_json Order.total_price].
    auto.
  - apply update_row_Forall; [exact Hdb|]. apply Hkept. exact Hin.
  - apply update_row_Forall; [exact Hdb|]. apply Hkept. exact Hin.
Qed.

(** X6.  In the ledger that any sequence of requests builds from carts of
    Unicode text, the [total_price] of every order is the sum of the prices
    of the lines that [json.loads] reads back from its [items_json], and it
    fits a signed 64-bit integer: the total is frozen with the lines. *)
Theorem totals_match_snapshots (rqs : list Request) (o : Order.t) :
  Forall valid_request rqs ->
  In o (orders (serve rqs empty_db)) ->
  exists cart_list,
    cart_list <> []
    /\ Json.loads (Order.items_json o) = Json.Ok (Json.cart_value cart_list)
    /\ Order.total_price o = fold_right Z.add 0 (map price cart_list)
    /\ - 2 ^ 63 <= Order.total_price o < 2 ^ 63.
Proof.
  intros Hv Hin.
  assert (H : Forall sound_row (orders (serve rqs empty_db))).
  { apply (serve_invariant valid_request); [|exact Hv|constructor].
    intros rq db db'. apply ledger_step_sound_rows. }
  rewrite Forall_forall in H.
  destruct (H o Hin) as (c & Hne & Hc & Hj & Ht & Hf).
  exists c. split; [exact Hne|]. split; [|split].
  - rewrite Hj. apply JsonFacts.loads_dumps. exact Hc.
  - rewrite Ht. apply cart_total_sum.
  - unfold fits_int64 in Hf. apply andb_true_iff in Hf.
    destruct Hf as [H1 H2]. apply Z.leb_le in H1. apply Z.ltb_lt in H2. lia.
Qed.

Lemma sample_requests_valid : Forall valid_request lifecycle.
Proof.
  unfold lifecycle.
  repeat (apply Forall_cons;
          [unfold valid_request; apply valid_lines_checked; reflexivity|]).
  apply Forall_nil.
Qed.

Lemma totals_match_snapshots_witness :
  Forall valid_request lifecycle
  /\ exists o cart_list,
       In o (orders (serve lifecycle empty_db))
       /\ Json.loads (Order.items_json o) = Json.Ok (Json.cart_value cart_list)
       /\ Order.total_price o = fold_right Z.add 0 (map price cart_list).
Proof.
  split; [exact sample_requests_valid|].
  assert (Hin : In (Order.mk 1 (strftime_YmdHMS noon) (User.username alice)
                             (Json.dumps sample_cart) 350 COMPLETED noon
                             (Some (after_noon 120)))
                   (orders (serve lifecycle empty_db)))
    by (left; reflexivity).
  destruct (totals_match_snapshots lifecycle _ sample_requests_valid Hin)
    as (c & _ & Hl & Ht & _).
  eexists. exists c. split; [exact Hin|]. split; [exact Hl | exact Ht].
Defined.

(** X7.  No request deletes an order or changes what was frozen in it: the
    rows a request finds are all there after it, in the same places, with
    their id, their code, their user, their lines, their total and their
    creation time. *)
Theorem orders_are_kept (rqs : list Request) (rq : Request) :
  let before := orders (serve rqs empty_db) in
  let after := orders (db_after rq (serve rqs empty_db)) in
  (List.length before <= List.length after)%nat
  /\ Forall2 same_snapshot before (firstn (List.length before) after).
Proof.
  cbv zeta.
  pose proof (ledger_step_rows _ _ _ (serve_ok rqs)
                (dispatch_step rq (serve rqs empty_db))) as H.
  split.
  - apply Forall2_length in H. rewrite length_firstn in H. lia.
  - eapply Forall2_impl; [|exact H]. intros a b [Hs _]. exact Hs.
Qed.

Lemma query_get_distinct (os : list Order.t) (o : Order.t) :
  NoDup (map Order.id os) -> In o os -> fits_int64 (Order.id o) = true ->
  query_get (Order.id o) os = inr (Some o).
Proof.
  intros Hnd Hin Hf. unfold query_get. rewrite Hf. f_equal.
  destruct (find (fun x => Order.id x =? Order.id o) os) as [x|] eqn:E.
  - apply find_some in E. destruct E as [Hx Hid]. apply Z.eqb_eq in Hid.
    f_equal. apply (ids_injective os); auto.
  - pose proof (find_none _ _ E o Hin) as H. cbn in H.
    rewrite Z.eqb_refl in H. discriminate.
Qed.

(** X8.  In the ledger that any sequence of requests builds, ids and order
    codes are keys: no two rows share an id, no two rows share a code, and
    [Order.query.get] on the id of a row gives that row (the id being one
    that can be bound, as the ids SQLite gives are). *)
Theorem ledger_keys (rqs : list Request) :
  let os := orders (serve rqs empty_db) in
  NoDup (map Order.id os)
  /\ NoDup (map Order.order_id os)
  /\ forall o, In o os -> fits_int64 (Order.id o) = true ->
               query_get (Order.id o) os = inr (Some o).
Proof.
  cbv zeta. destruct (serve_ok rqs) as [Hids Hcodes _ _].
  split; [exact Hids|]. split; [exact Hcodes|].
  intros o Hin Hf. apply query_get_distinct; assumption.
Qed.

(** X9.  In the ledger that any sequence of requests builds, a status
    update of the administrator touches one row at most: every row with
    another id is as it was, and the row with the id keeps all but its
    status and its [completed_at]. *)
Theorem update_touches_one_row (rqs : list Request) (cu : option User.t)
    (sess : Session) (i : Z) (st : str) (now : datetime) :
  let db := serve rqs empty_db in
  let db' := db_of (update_order_status cu sess db i st now) in
  Forall2 (fun o o' => same_snapshot o o' /\ (Order.id o <> i -> o' = o))
          (orders db) (orders db')
  /\ users db' = users db.
Proof.
  cbv zeta. set (db := serve rqs empty_db).
  destruct (serve_ok rqs) as [Hids _ _ _]. fold db in Hids.
  assert (Hrefl : forall x : Order.t,
             same_snapshot x x /\ (Order.id x <> i -> x = x)).
  { intros x. split; [unfold same_snapshot; auto 10 | reflexivity]. }
  pose proof (Forall2_same
                (fun o o' => same_snapshot o o' /\ (Order.id o <> i -> o' = o))
                (orders db) Hrefl) as Hsame.
  unfold update_order_status, login_required, unauthorized, db_of.
  destruct cu as [u|]; [|split; [exact Hsame | reflexivity]].
  destruct (User.is_admin u); cbn [negb snd];
    [|split; [exact Hsame | reflexivity]].
  destruct (query_get i (orders db)) as [e|[order|]] eqn:Eq;
    [split; [exact Hsame | reflexivity]|
    |split; [exact Hsame | reflexivity]].
  apply query_get_some in Eq. destruct Eq as [Hin Hid].
  destruct (str_eqb st COMPLETED && negb (str_eqb (Order.status order) PAID));
    cbn [snd]; [split; [exact Hsame | reflexivity]|].
  split; [|reflexivity]. cbn [orders].
  apply (update_row_Forall2 _ order); auto.
  - destruct (str_eqb st COMPLETED); reflexivity.
  - split; [destruct (str_eqb st COMPLETED); unfold same_snapshot; auto 10|].
    intros Hne. contradiction.
Qed.





(** ** The order list of the administrator *)

Lemma In_pending_orders (db : Db) (o : Order.t) :
  In o (pending_orders db)
  <-> In o (orders db) /\ Order.status o <> COMPLETED.
Proof.
  unfold pending_orders. rewrite In_order_by_desc, filter_In, negb_true_iff,
    str_eqb_neq. tauto.
Qed.

Lemma In_recently_completed (now : datetime) (db : Db) (o : Order.t) :
  In o (recently_completed now db)
  <-> In o (orders db) /\ Order.status o = COMPLETED
      /\ exists d, Order.completed_at o = Some d
                   /\ now - timedelta_days 30 <= d.
Proof.
  unfold recently_completed. rewrite In_order_by_desc, filter_In, andb_true_iff,
    str_eqb_eq.
  destruct (Order.completed_at o) as [d|].
  - rewrite Z.leb_le. split.
    + intros (H1 & H2 & H3). eauto.
    + intros (H1 & H2 & d' & E & H3). injection E as <-. auto.
  - split.
    + intros (_ & _ & H). discriminate.
    + intros (_ & _ & d & E & _). discriminate.
Qed.

(** X12.  On a table whose rows can be read back, the order list of the
    administrator shows two lists: the orders that are not completed,
    newest first, and the completed orders whose [completed_at] is within
    the last thirty days, the last completed first.  So no order is in
    both, and a completed order of more than thirty days ago, or without a
    [completed_at], is in neither. *)
Theorem admin_order_list_shows (u : User.t) (sess : Session) (db : Db)
    (now : datetime) :
  User.is_admin u = true ->
  rows_load db ->
  exists pending completed,
    admin_orders (Some u) sess db now
    = (Render (admin_orders_html pending completed), sess, db)
    /\ (forall o, In o (map fst pending)
                  <-> In o (orders db) /\ Order.status o <> COMPLETED)
    /\ (forall o, In o (map fst completed)
                  <-> In o (orders db) /\ Order.status o = COMPLETED
                      /\ exists d, Order.completed_at o = Some d
                                   /\ now - timedelta_days 30 <= d)
    /\ StronglySorted (fun a b => Order.created_at b <= Order.created_at a)
                      (map fst pending)
    /\ StronglySorted (fun a b => completed_key b <= completed_key a)
                      (map fst completed).
Proof.
  intros Ha Hload. unfold admin_orders, login_required. rewrite Ha.
  cbn [negb].
  destruct (load_items_lists_loads (pending_orders db ++ recently_completed now db))
    as (listed & E & Hrows).
  { intros o Ho. apply Hload. apply in_app_or in Ho.
    destruct Ho as [Ho|Ho];
      [apply In_pending_orders in Ho | apply In_recently_completed in Ho]; tauto. }
  rewrite E. eexists. eexists. split; [reflexivity|].
  assert (Hp : map fst (firstn (List.length (pending_orders db)) listed)
               = pending_orders db).
  { rewrite <- firstn_map, Hrows, firstn_app, firstn_all, Nat.sub_diag.
    cbn [firstn]. apply List.app_nil_r. }
  assert (Hc : map fst (skipn (List.length (pending_orders db)) listed)
               = recently_completed now db).
  { rewrite <- skipn_map, Hrows, skipn_app, skipn_all, Nat.sub_diag.
    reflexivity. }
  rewrite Hp, Hc. split; [|split; [|split]].
  - intros o. apply In_pending_orders.
  - intros o. apply In_recently_completed.
  - apply order_by_desc_sorted.
  - apply order_by_desc_sorted.
Qed.

Lemma admin_order_list_shows_witness :
  let db := serve lifecycle empty_db in
  User.is_admin admin = true
  /\ rows_load db
  /\ exists pending completed,
       admin_orders (Some admin) empty_session db (after_noon 180)
       = (Render (admin_orders_html pending completed), empty_session, db)
       /\ forall o, In o (map fst pending)
                    <-> In o (orders db) /\ Order.status o <> COMPLETED.
Proof.
  intros db.
  assert (Hload : rows_load db).
  { intros o [<-|[]]. eexists. reflexivity. }
  split; [reflexivity|]. split; [exact Hload|].
  destruct (admin_order_list_shows admin empty_session db (after_noon 180)
              eq_refl Hload) as (p & c & Hv & Hp & _).
  exists p, c. split; [exact Hv | exact Hp].
Defined.

(** ** Accounts *)

Module AccountFacts.
Import Account.

Lemma first_by_username_none (name : str) (us : list User.t) :
  first_by_username name us = None <-> ~ In name (map User.username us).
Proof.
  unfold first_by_username. induction us as [|x us IH]; cbn [find map In].
  - tauto.
  - destruct (str_eqb (User.username x) name) eqn:E.
    + apply str_eqb_eq in E. split; [discriminate | intros H; exfalso; auto].
    + apply str_eqb_neq in E. rewrite IH. tauto.
Qed.

Lemma first_by_username_some (name : str) (us : list User.t) (u : User.t) :
  first_by_username name us = Some u -> In u us /\ User.username u = name.
Proof.
  unfold first_by_username. intros H. apply find_some in H.
  rewrite str_eqb_eq in H. exact H.
Qed.

Lemma next_user_id_fresh (us : list User.t) (u : User.t) :
  In u us -> User.id u < next_user_id us.
Proof.
  unfold next_user_id. induction us as [|x us IH]; cbn [In map fold_right];
    [tauto|].
  intros [->|Hin]; [lia|]. specialize (IH Hin). lia.
Qed.

Section Registration.
Variable generate_password_hash : str -> str -> str.

(** A posted registration leaves the database as it was when the name is
    taken, and appends one user who is not an administrator otherwise. *)
Lemma register_db_cases (f : signup) (db : Db) :
  (In (signup_username f) (map User.username (users db))
   /\ register_db generate_password_hash f db = db)
  \/ (~ In (signup_username f) (map User.username (users db))
      /\ register_db generate_password_hash f db
         = mkDb (orders db)
                (users db
                 ++ [User.mk (next_user_id (users db)) (signup_username f)
                             (generate_password_hash (signup_salt f)
                                                     (signup_password f))
                             false])).
Proof.
  unfold register_db, register.
  destruct (first_by_username (signup_username f) (users db)) as [u|] eqn:E.
  - left. split; [|reflexivity].
    apply first_by_username_some in E. destruct E as [Hin <-].
    apply in_map. exact Hin.
  - right. split; [|reflexivity]. apply first_by_username_none. exact E.
Qed.


Lemma register_all_grows (fs : list signup) (db : Db) :
  exists added,
    users (register_all generate_password_hash fs db) = users db ++ added
    /\ Forall (fun u => User.is_admin u = false) added
    /\ orders (register_all generate_password_hash fs db) = orders db.
Proof.
  unfold register_all. revert db.
  induction fs as [|f fs IH]; intros db; cbn [fold_left].
  - exists []. rewrite List.app_nil_r. auto.
  - destruct (IH (register_db generate_password_hash f db))
      as (added & Hu & Ha & Ho).
    destruct (register_db_cases f db) as [[_ E]|[_ E]]; rewrite E in *.
    + exists added. auto.
    + cbn [users orders] in *. rewrite <- app_assoc in Hu.
      eexists. split; [exact Hu|]. split; [|exact Ho].
      constructor; [reflexivity | exact Ha].
Qed.

End Registration.

End AccountFacts.



(** X14.  Registration gives nobody the rights of an administrator and
    touches nothing that is there: after any sequence of registrations the
    users that were there are there unchanged, first and in their order,
    every user that was added is not an administrator, and the orders are
    as they were. *)
Theorem registrations_add_plain_users
    (generate_password_hash : str -> str -> str)
    (fs : list Account.signup) (db : Db) :
  let db' := Account.register_all generate_password_hash fs db in
  exists added,
    users db' = users db ++ added
    /\ Forall (fun u => User.is_admin u = false) added
    /\ orders db' = orders db.
Proof. apply AccountFacts.register_all_grows. Qed.

Lemma first_by_username_new (name : str) (us : list User.t) (new : User.t) :
  ~ In name (map User.username us) -> User.username new = name ->
  Account.first_by_username name (us ++ [new]) = Some new.
Proof.
  intros Hfree Hname. unfold Account.first_by_username.
  induction us as [|x us IH]; cbn [app find].
  - rewrite Hname, str_eqb_refl. reflexivity.
  - cbn [map In] in Hfree.
    replace (str_eqb (User.username x) name) with false.
    + apply IH. tauto.
    + symmetry. apply str_eqb_neq. tauto.
Qed.

(** X15.  A name that is free cannot log in.  Once it is registered with a
    password, and given that the library checks a password against its own
    hash as equal, a login under the name with that password logs the new
    user in, who is not an administrator, and a login with a password that
    the hash refuses is turned down and leaves the principal of the
    session as it was.  No login changes the cart. *)
Theorem register_then_login
    (generate_password_hash : str -> str -> str)
    (check_password_hash : str -> str -> bool)
    (name pw salt : str) (db : Db) (principal : option User.t)
    (sess : Session) :
  (forall s p, check_password_hash (generate_password_hash s p) p = true) ->
  ~ In name (map User.username (users db)) ->
  let refused := (Account.Page Account.login_html,
                  flash (lit "登入失敗，請檢查帳號密碼") sess, principal) in
  let db' := Account.register_db generate_password_hash
               (Account.mkSignup name pw salt) db in
  let new := User.mk (Account.next_user_id (users db)) name
                     (generate_password_hash salt pw) false in
  Account.login check_password_hash principal sess db POST (Some name) (Some pw)
  = refused
  /\ Account.login check_password_hash principal sess db' POST
                   (Some name) (Some pw)
     = (Account.Go Account.to_index, sess, Some new)
  /\ forall pw',
       check_password_hash (generate_password_hash salt pw) pw' = false ->
       Account.login check_password_hash principal sess db' POST
                     (Some name) (Some pw')
       = refused.
Proof.
  intros Hlib Hfree. cbv zeta.
  destruct (AccountFacts.register_db_cases generate_password_hash
              (Account.mkSignup name pw salt) db) as [[Hin _]|[_ E]];
    [contradiction|].
  rewrite E. cbn [Account.signup_username Account.signup_password
                  Account.signup_salt] in *.
  unfold Account.login. cbn [users].
  rewrite (proj2 (AccountFacts.first_by_username_none name (users db)) Hfree).
  rewrite (first_by_username_new name (users db)
             (User.mk (Account.next_user_id (users db)) name
                      (generate_password_hash salt pw) false)
             Hfree eq_refl).
  cbn [User.password]. rewrite Hlib.
  split; [reflexivity|]. split; [reflexivity|].
  intros pw' Hbad. rewrite Hbad. reflexivity.
Qed.

Lemma register_then_login_witness :
  let hash := fun (salt p : str) => p in
  (forall s p, str_eqb (hash s p) p = true)
  /\ ~ In (lit "carol") (map User.username (users empty_db))
  /\ Account.login str_eqb None alice_session
       (Account.register_db hash
          (Account.mkSignup (lit "carol") (lit "pw") (lit "salt")) empty_db)
       POST (Some (lit "carol")) (Some (lit "pw"))
     = (Account.Go Account.to_index, alice_session,
        Some (User.mk 1 (lit "carol") (lit "pw") false)).
Proof.
  intros hash.
  assert (Hlib : forall s p, str_eqb (hash s p) p = true)
    by (intros s p; apply str_eqb_refl).
  assert (Hfree : ~ In (lit "carol") (map User.username (users empty_db)))
    by (intros []).
  split; [exact Hlib|]. split; [exact Hfree|].
  exact (proj1 (proj2 (register_then_login hash str_eqb (lit "carol") (lit "pw")
                         (lit "salt") empty_db None alice_session
                         Hlib Hfree))).
Defined.

Lemma Forall2_same_In {A : Type} (R : A -> A -> Prop) (l : list A) :
  (forall x, In x l -> R x x) -> Forall2 R l l.
Proof.
  induction l as [|x l IH]; intros H; constructor.
  - apply H. left. reflexivity.
  - apply IH. intros y Hy. apply H. right. exact Hy.
Qed.

Lemma user_ids_injective (us : list User.t) (x y : User.t) :
  NoDup (map User.id us) -> In x us -> In y us ->
  User.id x = User.id y -> x = y.
Proof.
  induction us as [|z us IH]; cbn [In map]; [tauto|].
  intros Hnd Hx Hy E. inversion Hnd as [|? ? Hz Hnd']; subst.
  destruct Hx as [->|Hx], Hy as [->|Hy]; auto.
  - exfalso. apply Hz. rewrite E. apply in_map. exact Hy.
  - exfalso. apply Hz. rewrite <- E. apply in_map. exact Hx.
Qed.

Lemma usernames_injective (us : list User.t) (x y : User.t) :
  NoDup (map User.username us) -> In x us -> In y us ->
  User.username x = User.username y -> x = y.
Proof.
  induction us as [|z us IH]; cbn [In map]; [tauto|].
  intros Hnd Hx Hy E. inversion Hnd as [|? ? Hz Hnd']; subst.
  destruct Hx as [->|Hx], Hy as [->|Hy]; auto.
  - exfalso. apply Hz. rewrite E. apply in_map. exact Hy.
  - exfalso. apply Hz. rewrite <- E. apply in_map. exact Hx.
Qed.

(** With distinct ids, the UPDATE of a user rewrites that user's row and
    no other. *)
Lemma update_user_Forall2 (R : User.t -> User.t -> Prop) (us : list User.t)
    (a a' : User.t) :
  NoDup (map User.id us) -> In a us -> User.id a' = User.id a ->
  (forall x, In x us -> x <> a -> R x x) -> R a a' ->
  Forall2 R us (Account.update_user a' us).
Proof.
  intros Hnd Hin Hid Hrefl Hr. unfold Account.update_user.
  assert (H : forall x, In x us ->
              R x (if User.id x =? User.id a' then a' else x)).
  { intros x Hx. destruct (User.id x =? User.id a') eqn:E.
    - apply Z.eqb_eq in E.
      rewrite (user_ids_injective us x a Hnd Hx Hin) by congruence. exact Hr.
    - apply Hrefl; [exact Hx|]. intros ->. apply Z.eqb_neq in E. congruence. }
  clear Hnd Hin Hrefl. induction us as [|x l IH]; cbn [map]; constructor.
  - apply H. left. reflexivity.
  - apply IH. intros y Hy. apply H. right. exact Hy.
Qed.

(** X16.  At the start of the program, on a table of users with distinct
    names and ids, the user named [admin] is made an administrator and
    nothing else changes: every other user is as before, the user named
    [admin] keeps id, name and password, and the orders are untouched. *)
Theorem bootstrap_promotes_admin_only (db : Db) :
  Account.users_ok db ->
  Forall2 (fun u u' =>
             User.id u' = User.id u /\ User.username u' = User.username u
             /\ User.password u' = User.password u
             /\ (User.username u = lit "admin" -> User.is_admin u' = true)
             /\ (User.username u <> lit "admin" -> u' = u))
          (users db) (users (Account.bootstrap db))
  /\ orders (Account.bootstrap db) = orders db.
Proof.
  intros [Hids Hnames]. unfold Account.bootstrap.
  destruct (Account.first_by_username (lit "admin") (users db)) as [a|] eqn:E.
  - apply AccountFacts.first_by_username_some in E. destruct E as [Hin Hname].
    split; [|reflexivity]. cbn [users].
    apply (update_user_Forall2 _ (users db) a); auto.
    + intros x Hx Hne. repeat split; auto.
      intros En. exfalso. apply Hne.
      apply (usernames_injective (users db)); auto. congruence.
    + cbn. repeat split; auto. intros Hc. contradiction.
  - apply AccountFacts.first_by_username_none in E. split; [|reflexivity].
    apply Forall2_same_In. intros x Hx. repeat split; auto.
    intros En. exfalso. apply E. rewrite <- En. apply in_map. exact Hx.
Qed.

Lemma bootstrap_promotes_admin_only_witness :
  let db := mkDb [] [alice; User.mk 2 (lit "admin") (lit "h") false] in
  Account.users_ok db
  /\ users (Account.bootstrap db)
     = [alice; User.mk 2 (lit "admin") (lit "h") true]
  /\ Forall2 (fun u u' => User.username u <> lit "admin" -> u' = u)
             (users db) (users (Account.bootstrap db)).
Proof.
  intros db.
  assert (Hok : Account.users_ok db).
  { split; cbn; repeat constructor; cbn; intuition discriminate. }
  split; [exact Hok|]. split; [reflexivity|].
  eapply Forall2_impl;
    [|exact (proj1 (bootstrap_promotes_admin_only db Hok))].
  intros u u' H. apply H.
Defined.

(** X17.  Whoever registers the name [admin] while it is free is an
    administrator after the next start of the program: the registration
    appends a user who is not one, and the start promotes that user. *)
Theorem registered_admin_is_promoted
    (generate_password_hash : str -> str -> str) (pw salt : str) (db : Db) :
  ~ In (lit "admin") (map User.username (users db)) ->
  let registered :=
    Account.register_db generate_password_hash
      (Account.mkSignup (lit "admin") pw salt) db in
  users registered
  = users db ++ [User.mk (Account.next_user_id (users db)) (lit "admin")
                         (generate_password_hash salt pw) false]
  /\ users (Account.bootstrap registered)
     = users db ++ [User.mk (Account.next_user_id (users db)) (lit "admin")
                            (generate_password_hash salt pw) true]
  /\ orders (Account.bootstrap registered) = orders db.
Proof.
  intros Hfree. cbv zeta.
  destruct (AccountFacts.register_db_cases generate_password_hash
              (Account.mkSignup (lit "admin") pw salt) db) as [[Hin _]|[_ E]];
    [contradiction|].
  rewrite E. cbn [Account.signup_username Account.signup_password
                  Account.signup_salt users orders] in *.
  split; [reflexivity|].
  unfold Account.bootstrap. cbn [users orders].
  rewrite (first_by_username_new (lit "admin") (users db)
             (User.mk (Account.next_user_id (users db)) (lit "admin")
                      (generate_password_hash salt pw) false)
             Hfree eq_refl).
  cbn [users orders]. split; [|reflexivity].
  unfold Account.update_user. rewrite map_app. cbn [map User.id Account.set_is_admin].
  rewrite Z.eqb_refl. f_equal.
  rewrite <- (map_id (users db)) at 2. apply map_ext_in.
  intros u Hu. apply AccountFacts.next_user_id_fresh in Hu.
  replace (User.id u =? Account.next_user_id (users db)) with false;
    [reflexivity|]. symmetry. apply Z.eqb_neq. lia.
Qed.

Lemma registered_admin_is_promoted_witness :
  let hash := fun (salt p : str) => salt ++ p in
  ~ In (lit "admin") (map User.username (users empty_db))
  /\ users (Account.bootstrap
              (Account.register_db hash
                 (Account.mkSignup (lit "admin") (lit "pw") (lit "s"))
                 empty_db))
     = [User.mk 1 (lit "admin") (lit "spw") true].
Proof.
  intros hash.
  assert (Hfree : ~ In (lit "admin") (map User.username (users empty_db)))
    by (intros []).
  split; [exact Hfree|].
  exact (proj1 (proj2 (registered_admin_is_promoted hash (lit "pw") (lit "s")
                         empty_db Hfree))).
Defined.

(** ** The catalogue *)

(** X18.  Without [data.json] the index page lists no game and every id
    is answered 404.  With a [data.json] that holds an object whose
    [games] is an array, the index page shows that array and
    [/api/game/<id>] answers the game at place [id] of it with 200 when
    there is one, and 404 otherwise (an id below zero included); it raises
    nothing. *)
Theorem api_serves_the_listed_games :
  (Catalogue.index None = Catalogue.index_html (Json.JArr [])
   /\ forall game_id, Catalogue.get_game_api None game_id = Catalogue.not_found)
  /\ forall (content : str) (kvs : list (str * Json.json))
            (games : list Json.json) (game_id : Z),
       Json.loads content = Json.Ok (Json.JObj kvs) ->
       Catalogue.dict_get (lit "games") kvs = Some (Json.JArr games) ->
       Catalogue.index (Some content) = Catalogue.index_html (Json.JArr games)
       /\ Catalogue.get_game_api (Some content) game_id
          = match (if 0 <=? game_id
                   then nth_error games (Z.to_nat game_id) else None) with
            | Some g => Catalogue.Jsonify g 200
            | None => Catalogue.not_found
            end.
Proof.
  split.
  - split; [reflexivity|]. intros game_id. unfold Catalogue.get_game_api.
    cbn. destruct (0 <=? game_id) eqn:E; [|reflexivity].
    apply Z.leb_le in E.
    replace (game_id <? 0) with false by (symmetry; apply Z.ltb_ge; lia).
    reflexivity.
  - intros content kvs games game_id Hload Hgames.
    unfold Catalogue.index, Catalogue.get_game_api, Catalogue.get_data.
    rewrite Hload. cbn [Catalogue.games_of]. rewrite Hgames.
    split; [reflexivity|].
    destruct (0 <=? game_id) eqn:E; [|reflexivity]. apply Z.leb_le in E.
    cbn [Catalogue.py_len Catalogue.py_item].
    destruct (game_id <? Z.of_nat (List.length games)) eqn:El.
    + apply Z.ltb_lt in El.
      destruct (nth_error games (Z.to_nat game_id)) as [g|] eqn:En;
        [reflexivity|].
      apply nth_error_None in En. lia.
    + apply Z.ltb_ge in El.
      replace (nth_error games (Z.to_nat game_id)) with (@None Json.json);
        [reflexivity|].
      symmetry. apply nth_error_None. lia.
Qed.

Lemma api_serves_the_listed_games_witness :
  let content := [123; 34] ++ lit "games" ++ [34; 58] ++ lit " [10, 20, 30]}" in
  exists kvs,
    Json.loads content = Json.Ok (Json.JObj kvs)
    /\ Catalogue.dict_get (lit "games") kvs
       = Some (Json.JArr [Json.JInt 10; Json.JInt 20; Json.JInt 30])
    /\ Catalogue.get_game_api (Some content) 1
       = Catalogue.Jsonify (Json.JInt 20) 200
    /\ Catalogue.get_game_api (Some content) 3 = Catalogue.not_found.
Proof.
  intros content. eexists.
  assert (Hl : Json.loads content
               = Json.Ok (Json.JObj [(lit "games",
                   Json.JArr [Json.JInt 10; Json.JInt 20; Json.JInt 30])]))
    by reflexivity.
  assert (Hg : Catalogue.dict_get (lit "games")
                 [(lit "games",
                   Json.JArr [Json.JInt 10; Json.JInt 20; Json.JInt 30])]
               = Some (Json.JArr [Json.JInt 10; Json.JInt 20; Json.JInt 30]))
    by reflexivity.
  split; [exact Hl|]. split; [exact Hg|].
  split.
  - exact (proj2 (proj2 api_serves_the_listed_games content _ _ 1 Hl Hg)).
  - exact (proj2 (proj2 api_serves_the_listed_games content _ _ 3 Hl Hg)).
Defined.

(** ** Order codes *)

Lemma strftime_fourteen_digits (t : datetime) :
  fourteen_digits (strftime_YmdHMS t).
Proof.
  unfold strftime_YmdHMS, fourteen_digits.
  destruct (_ord2ymd _) as [[y m] d]. unfold pad4, pad2, digit. cbn [app].
  split; [reflexivity|].
  repeat constructor;
    match goal with
    | |- 48 <= 48 + ?x mod 10 => pose proof (Z.mod_pos_bound x 10); lia
    | |- 48 + ?x mod 10 <= 57 => pose proof (Z.mod_pos_bound x 10); lia
    end.
Qed.

(** X19.  Every order code of the ledger that any sequence of requests
    builds is made of fourteen decimal digits, the date and the time of
    day of its checkout: it fits the twenty characters of its column. *)
Theorem order_codes_are_fourteen_digits (rqs : list Request) (o : Order.t) :
  In o (orders (serve rqs empty_db)) ->
  List.length (Order.order_id o) = 14%nat
  /\ Forall (fun c => 48 <= c <= 57) (Order.order_id o).
Proof.
  intros Ho.
  assert (H : Forall (fun o => fourteen_digits (Order.order_id o))
                     (orders (serve rqs empty_db))).
  { apply (serve_invariant (fun _ => True)).
    - intros rq db db' _ Hdb Hstep. step_cases Hstep.
      + exact Hdb.
      + apply Forall_app. split; [exact Hdb|]. constructor; [|constructor].
        apply strftime_fourteen_digits.
      + apply update_row_Forall; [exact Hdb|].
        rewrite Forall_forall in Hdb. exact (Hdb order Hin).
      + apply update_row_Forall; [exact Hdb|].
        rewrite Forall_forall in Hdb. exact (Hdb order Hin).
    - apply Forall_forall. auto.
    - constructor. }
  rewrite Forall_forall in H. exact (H o Ho).
Qed.

Lemma order_codes_are_fourteen_digits_witness :
  exists o,
    In o (orders (serve lifecycle empty_db))
    /\ List.length (Order.order_id o) = 14%nat.
Proof.
  eexists. split; [left; reflexivity|].
  apply (order_codes_are_fourteen_digits lifecycle); left; reflexivity.
Defined.

(** ** The calendar: a code names one second *)

Module CalendarFacts.

Lemma all_from_spec (f : Z -> bool) (n : nat) :
  forall i, all_from f i n = true ->
  forall r, i <= r < i + Z.of_nat n -> f r = true.
Proof.
  induction n as [|k IH]; intros i H r Hr; [lia|].
  cbn [all_from] in H. apply andb_true_iff in H. destruct H as [Hi Hrest].
  destruct (Z.eq_dec r i) as [->|Hne]; [exact Hi|].
  apply (IH (i + 1)); [exact Hrest | lia].
Qed.

Lemma cycle_checked : all_from cycle_ok 0 (Z.to_nat 146097) = true.
Proof. vm_cast_no_check (eq_refl true). Qed.

Lemma cycle_spec (r : Z) :
  0 <= r < 146097 ->
  exists y m d,
    _ord2ymd (r + 1) = (y, m, d)
    /\ 1 <= y <= 400 /\ 1 <= m <= 12 /\ 1 <= d <= 31
    /\ _ymd2ord y m d = r + 1.
Proof.
  intros Hr.
  assert (H : cycle_ok r = true).
  { apply (all_from_spec cycle_ok (Z.to_nat 146097) 0 cycle_checked).
    rewrite Z2Nat.id; lia. }
  unfold cycle_ok in H.
  destruct (_ord2ymd (r + 1)) as [[y m] d].
  repeat (apply andb_true_iff in H; destruct H as [H ?]).
  exists y, m, d. repeat split;
    repeat match goal with
           | E : (_ <=? _) = true |- _ => apply Z.leb_le in E
           | E : (_ =? _) = true |- _ => apply Z.eqb_eq in E
           end; lia.
Qed.

Lemma _ord2ymd_cycle (n : Z) :
  _ord2ymd n
  = let '(y, m, d) := _ord2ymd ((n - 1) mod 146097 + 1) in
    (y + 400 * ((n - 1) / 146097), m, d).
Proof.
  unfold _ord2ymd. cbv zeta.
  replace ((n - 1) mod 146097 + 1 - 1) with ((n - 1) mod 146097) by lia.
  rewrite Z.mod_mod by lia.
  rewrite (Z.div_small ((n - 1) mod 146097) 146097)
    by (apply Z.mod_pos_bound; lia).
  set (r := (n - 1) mod 146097). set (q := (n - 1) / 146097).
  destruct ((r mod 36524 mod 1461 / 365 =? 4) || (r / 36524 =? 4)).
  - f_equal. f_equal. lia.
  - match goal with
    | |- (if ?c then _ else _) = _ => destruct c
    end; f_equal; f_equal; lia.
Qed.

Lemma _is_leap_cycle (y q : Z) : _is_leap (y + 400 * q) = _is_leap y.
Proof.
  unfold _is_leap.
  replace ((y + 400 * q) mod 4) with (y mod 4)
    by (replace (y + 400 * q) with (y + (100 * q) * 4) by lia;
        symmetry; apply Z_mod_plus_full).
  replace ((y + 400 * q) mod 100) with (y mod 100)
    by (replace (y + 400 * q) with (y + (4 * q) * 100) by lia;
        symmetry; apply Z_mod_plus_full).
  replace ((y + 400 * q) mod 400) with (y mod 400)
    by (replace (y + 400 * q) with (y + q * 400) by lia;
        symmetry; apply Z_mod_plus_full).
  reflexivity.
Qed.

Lemma _ymd2ord_cycle (y m d q : Z) :
  _ymd2ord (y + 400 * q) m d = _ymd2ord y m d + 146097 * q.
Proof.
  unfold _ymd2ord. rewrite _is_leap_cycle. unfold _days_before_year.
  cbv zeta.
  replace ((y + 400 * q - 1) / 4) with ((y - 1) / 4 + 100 * q)
    by (replace (y + 400 * q - 1) with (y - 1 + (100 * q) * 4) by lia;
        symmetry; apply Z_div_plus_full; lia).
  replace ((y + 400 * q - 1) / 100) with ((y - 1) / 100 + 4 * q)
    by (replace (y + 400 * q - 1) with (y - 1 + (4 * q) * 100) by lia;
        symmetry; apply Z_div_plus_full; lia).
  replace ((y + 400 * q - 1) / 400) with ((y - 1) / 400 + q)
    by (replace (y + 400 * q - 1) with (y - 1 + q * 400) by lia;
        symmetry; apply Z_div_plus_full; lia).
  lia.
Qed.

Lemma _DAYS_BEFORE_MONTH_nonneg (m : Z) :
  1 <= m <= 12 -> 0 <= _DAYS_BEFORE_MONTH m.
Proof.
  intros Hm. assert (H : m = 1 \/ m = 2 \/ m = 3 \/ m = 4 \/ m = 5 \/ m = 6
                         \/ m = 7 \/ m = 8 \/ m = 9 \/ m = 10 \/ m = 11
                         \/ m = 12) by lia.
  repeat (destruct H as [->|H]; [cbv; discriminate|]). subst. cbv. discriminate.
Qed.

(** [_ymd2ord] undoes [_ord2ymd]; month and day are in range, and so is
    the year for an ordinal of the range of [date]. *)
Lemma _ord2ymd_spec (n : Z) :
  exists y m d,
    _ord2ymd n = (y, m, d)
    /\ 1 <= m <= 12 /\ 1 <= d <= 31
    /\ _ymd2ord y m d = n
    /\ (1 <= n <= 3652059 -> 1 <= y <= 9999).
Proof.
  rewrite _ord2ymd_cycle.
  pose proof (Z.mod_pos_bound (n - 1) 146097 ltac:(lia)) as Hr.
  destruct (cycle_spec _ Hr) as (y & m & d & E & Hy & Hm & Hd & Hrt).
  rewrite E. exists (y + 400 * ((n - 1) / 146097)), m, d.
  assert (Hn : _ymd2ord (y + 400 * ((n - 1) / 146097)) m d = n).
  { rewrite _ymd2ord_cycle, Hrt.
    pose proof (Z.div_mod (n - 1) 146097 ltac:(lia)). lia. }
  split; [reflexivity|]. split; [exact Hm|]. split; [exact Hd|].
  split; [exact Hn|].
  intros Hrange.
  assert (Hq : 0 <= (n - 1) / 146097 <= 24).
  { split; [apply Z.div_pos; lia|].
    apply Z.lt_succ_r. apply Z.div_lt_upper_bound; lia. }
  split; [lia|].
  destruct (Z.le_gt_cases (y + 400 * ((n - 1) / 146097)) 9999) as [Hle|Hgt];
    [exact Hle|].
  exfalso.
  assert (Hy' : y + 400 * ((n - 1) / 146097) = 10000) by lia.
  rewrite Hy' in Hn. unfold _ymd2ord in Hn.
  change (_days_before_year 10000) with 3652059 in Hn.
  pose proof (_DAYS_BEFORE_MONTH_nonneg m Hm).
  assert (0 <= b2z ((2 <? m) && _is_leap 10000))
    by (destruct ((2 <? m) && _is_leap 10000); cbn; lia).
  lia.
Qed.

Lemma pad4_inj (a b : Z) :
  0 <= a < 10000 -> 0 <= b < 10000 -> pad4 a = pad4 b -> a = b.
Proof.
  unfold pad4. intros Ha Hb H.
  pose proof (f_equal (fun l => nth 0 l 0) H) as H0.
  pose proof (f_equal (fun l => nth 1 l 0) H) as H1.
  pose proof (f_equal (fun l => nth 2 l 0) H) as H2.
  pose proof (f_equal (fun l => nth 3 l 0) H) as H3.
  cbn [nth] in H0, H1, H2, H3. unfold digit in H0, H1, H2, H3. clear H.
  Z.div_mod_to_equations. lia.
Qed.

Lemma pad2_inj (a b : Z) :
  0 <= a < 100 -> 0 <= b < 100 -> pad2 a = pad2 b -> a = b.
Proof.
  unfold pad2. intros Ha Hb H.
  pose proof (f_equal (fun l => nth 0 l 0) H) as H0.
  pose proof (f_equal (fun l => nth 1 l 0) H) as H1.
  cbn [nth] in H0, H1. unfold digit in H0, H1. clear H.
  Z.div_mod_to_equations. lia.
Qed.

Lemma pad4_length (a : Z) : List.length (pad4 a) = 4%nat.
Proof. reflexivity. Qed.

Lemma pad2_length (a : Z) : List.length (pad2 a) = 2%nat.
Proof. reflexivity. Qed.

Lemma app_inj_length (a a' b b' : str) :
  List.length a = List.length a' -> a ++ b = a' ++ b' -> a = a' /\ b = b'.
Proof.
  revert a'. induction a as [|x a IH]; intros [|y a'] Hl H;
    try discriminate Hl.
  - auto.
  - cbn [app] in H. injection H as -> H. cbn [List.length] in Hl.
    destruct (IH a' ltac:(lia) H) as [-> ->]. auto.
Qed.

(** The time of day of a second of the day, from its two-digit fields. *)
Lemma second_of_day_inj (s1 s2 : Z) :
  0 <= s1 < 86400 -> 0 <= s2 < 86400 ->
  pad2 (s1 / 3600) = pad2 (s2 / 3600) ->
  pad2 (s1 / 60 mod 60) = pad2 (s2 / 60 mod 60) ->
  pad2 (s1 mod 60) = pad2 (s2 mod 60) ->
  s1 = s2.
Proof.
  intros H1 H2 Hh Hm Hs.
  apply pad2_inj in Hh; [| Z.div_mod_to_equations; lia
                         | Z.div_mod_to_equations; lia].
  apply pad2_inj in Hm; [| Z.div_mod_to_equations; lia
                         | Z.div_mod_to_equations; lia].
  apply pad2_inj in Hs; [| Z.div_mod_to_equations; lia
                         | Z.div_mod_to_equations; lia].
  Z.div_mod_to_equations. lia.
Qed.

(** A code of [strftime] is the code of one second only. *)
Lemma strftime_inj (t1 t2 : datetime) :
  in_datetime_range t1 -> in_datetime_range t2 ->
  strftime_YmdHMS t1 = strftime_YmdHMS t2 ->
  t1 / US_PER_SECOND = t2 / US_PER_SECOND.
Proof.
  unfold strftime_YmdHMS, in_datetime_range, US_PER_DAY. unfold US_PER_SECOND.
  cbv zeta. intros Hr1 Hr2 H.
  set (s1 := t1 / 1000000) in *. set (s2 := t2 / 1000000) in *.
  assert (Hs1 : 0 <= s1 < 3652059 * 86400)
    by (subst s1; split; [apply Z.div_pos; lia
                         | apply Z.div_lt_upper_bound; lia]).
  assert (Hs2 : 0 <= s2 < 3652059 * 86400)
    by (subst s2; split; [apply Z.div_pos; lia
                         | apply Z.div_lt_upper_bound; lia]).
  clearbody s1 s2. clear Hr1 Hr2 t1 t2.
  destruct (_ord2ymd_spec (s1 / 86400 + 1))
    as (y1 & m1 & d1 & E1 & Hm1 & Hd1 & Hrt1 & Hy1).
  destruct (_ord2ymd_spec (s2 / 86400 + 1))
    as (y2 & m2 & d2 & E2 & Hm2 & Hd2 & Hrt2 & Hy2).
  rewrite E1, E2 in H.
  assert (Hn1 : 1 <= s1 / 86400 + 1 <= 3652059)
    by (Z.div_mod_to_equations; lia).
  assert (Hn2 : 1 <= s2 / 86400 + 1 <= 3652059)
    by (Z.div_mod_to_equations; lia).
  specialize (Hy1 Hn1). specialize (Hy2 Hn2).
  apply app_inj_length in H; [|reflexivity]. destruct H as [Hy H].
  apply app_inj_length in H; [|reflexivity]. destruct H as [Hm H].
  apply app_inj_length in H; [|reflexivity]. destruct H as [Hd H].
  apply app_inj_length in H; [|reflexivity]. destruct H as [HH H].
  apply app_inj_length in H; [|reflexivity]. destruct H as [HM HS].
  apply pad4_inj in Hy; [|lia|lia].
  apply pad2_inj in Hm; [|lia|lia].
  apply pad2_inj in Hd; [|lia|lia].
  subst y2 m2 d2.
  assert (Hord : s1 / 86400 = s2 / 86400) by lia.
  assert (Hsod : s1 mod 86400 = s2 mod 86400).
  { apply second_of_day_inj; auto; apply Z.mod_pos_bound; lia. }
  rewrite (Z.div_mod s1 86400), (Z.div_mod s2 86400) by lia.
  rewrite Hord, Hsod. reflexivity.
Qed.
End CalendarFacts.

(** X20.  For instants of the range of [datetime], two order codes are
    equal exactly when the instants are in the same second: checkouts of
    different seconds never compute the same code. *)
Theorem codes_collide_within_a_second_only (t1 t2 : datetime) :
  in_datetime_range t1 -> in_datetime_range t2 ->
  (strftime_YmdHMS t1 = strftime_YmdHMS t2
   <-> t1 / US_PER_SECOND = t2 / US_PER_SECOND).
Proof.
  intros H1 H2. split.
  - apply CalendarFacts.strftime_inj; assumption.
  - apply strftime_same_second.
Qed.

Lemma codes_collide_within_a_second_only_witness :
  in_datetime_range noon /\ in_datetime_range (after_noon 1)
  /\ strftime_YmdHMS noon <> strftime_YmdHMS (after_noon 1).
Proof.
  assert (H1 : in_datetime_range noon) by (cbv; split; congruence).
  assert (H2 : in_datetime_range (after_noon 1)) by (cbv; split; congruence).
  split; [exact H1|]. split; [exact H2|].
  intros E.
  apply (proj1 (codes_collide_within_a_second_only noon (after_noon 1) H1 H2))
    in E.
  vm_compute in E. discriminate E.
Defined.

(** X21.  A checkout of a logged-in user with a non-empty cart whose total
    fits the column succeeds whenever every order of the table got its
    code in another second than this one: the code is free, the row is
    appended and the confirmation page rendered. *)
Theorem checkout_in_a_fresh_second (u : User.t) (sess : Session) (db : Db)
    (now dnow : datetime) :
  get_cart sess <> [] ->
  fits_int64 (cart_total (get_cart sess)) = true ->
  in_datetime_range now ->
  (forall o, In o (orders db) ->
             exists t, in_datetime_range t
                       /\ Order.order_id o = strftime_YmdHMS t
                       /\ t / US_PER_SECOND <> now / US_PER_SECOND) ->
  exists info o,
    checkout (Some u) sess db POST now dnow
    = (Render (order_confirm_html info), pop_cart sess,
       mkDb (orders db ++ [o]) (users db))
    /\ Order.order_id o = strftime_YmdHMS now.
Proof.
  intros Hne Hfit Hnow Hrows.
  assert (Hfree : order_id_taken (strftime_YmdHMS now) (orders db) = false).
  { destruct (order_id_taken (strftime_YmdHMS now) (orders db)) eqn:E;
      [|reflexivity].
    unfold order_id_taken in E. apply existsb_exists in E.
    destruct E as (o & Hin & Heq). apply str_eqb_eq in Heq.
    destruct (Hrows o Hin) as (t & Ht & Hcode & Hsec).
    exfalso. apply Hsec. apply CalendarFacts.strftime_inj; congruence. }
  unfold checkout, login_required, add_order.
  destruct (get_cart sess) as [|l items]; [contradiction|].
  rewrite Hfit, Hfree. cbn [negb]. eexists. eexists.
  split; reflexivity.
Qed.

Lemma checkout_in_a_fresh_second_witness :
  let db := serve [rq_checkout alice alice_session noon] empty_db in
  get_cart bob_session <> []
  /\ exists info o,
       checkout (Some bob) bob_session db POST (after_noon 1) (after_noon 1)
       = (Render (order_confirm_html info), pop_cart bob_session,
          mkDb (orders db ++ [o]) (users db)).
Proof.
  intros db.
  assert (Hne : get_cart bob_session <> []) by discriminate.
  assert (Hnow : in_datetime_range (after_noon 1))
    by (cbv; split; congruence).
  assert (Hrows : forall o, In o (orders db) ->
             exists t, in_datetime_range t
                       /\ Order.order_id o = strftime_YmdHMS t
                       /\ t / US_PER_SECOND <> after_noon 1 / US_PER_SECOND).
  { intros o [<-|[]]. exists noon. split; [cbv; split; congruence|].
    split; [reflexivity|]. vm_compute. discriminate. }
  split; [exact Hne|].
  destruct (checkout_in_a_fresh_second bob bob_session db (after_noon 1)
              (after_noon 1) Hne eq_refl Hnow Hrows) as (info & o & H & _).
  exists info, o. exact H.
Defined.
